(** * TF2 kill-icon sprite generator: a model of [generate.py]

    The development follows the four stages of the script: the
    definition parser ([parse_mod_textures],
    [parse_community_mod_textures]), the name resolver
    ([find_weapon_icon]), the sprite packer ([pack_sprites]) and the
    stylesheet emitter ([generate_css]).

    Conventions.
    - A Python [str] is a [string]; its characters are the code points
      below 256.
    - A Python [int] is a [Z].
    - A Python [dict] is an association list in insertion order
      ([dict_set] overwrites in place, or appends a new key at the end).
    - A function that recurses without a structural argument takes a
      [fuel : nat] and returns [None] when the fuel runs out. *)

From Stdlib Require Import ZArith List Bool Lia Ascii String.
From Stdlib Require Import Sorting.Permutation Sorting.Sorted.
From Stdlib Require Import DecimalString DecimalZ.
Import ListNotations.

Local Open Scope string_scope.
Local Open Scope Z_scope.

(** ** Strings *)

Module Str.

(** [needle in hay] on Python strings. *)
Fixpoint contains (needle hay : string) : bool :=
  String.prefix needle hay ||
  match hay with
  | EmptyString => false
  | String _ hay' => contains needle hay'
  end.

(** [s.startswith(p)]. *)
Definition startswith (s p : string) : bool := String.prefix p s.

(** [str.isspace] on one character (also the class [\s] of [re]). *)
Definition isspace (c : ascii) : bool :=
  let n := nat_of_ascii c in
  ((9 <=? n) && (n <=? 13) || (28 <=? n) && (n <=? 32)
   || (n =? 133) || (n =? 160))%nat.

Fixpoint lstrip (s : string) : string :=
  match s with
  | String c s' => if isspace c then lstrip s' else s
  | EmptyString => EmptyString
  end.

Fixpoint rstrip (s : string) : string :=
  match s with
  | EmptyString => EmptyString
  | String c s' =>
      match rstrip s' with
      | EmptyString => if isspace c then EmptyString else String c EmptyString
      | r => String c r
      end
  end.

(** [s.strip()]. *)
Definition strip (s : string) : string := rstrip (lstrip s).

(** [str.lower] on one character. *)
Definition lower_char (c : ascii) : ascii :=
  let n := nat_of_ascii c in
  if ((65 <=? n) && (n <=? 90)
      || (192 <=? n) && (n <=? 222) && negb (n =? 215))%nat
  then ascii_of_nat (n + 32) else c.

Fixpoint lower (s : string) : string :=
  match s with
  | EmptyString => EmptyString
  | String c s' => String (lower_char c) (lower s')
  end.

(** [s.replace(old, new)] for a non-empty [old]: matches are taken
    left to right and do not overlap.  [skip] counts the characters of
    the current match that are still to be dropped. *)
Fixpoint replace_from (old new s : string) (skip : nat) : string :=
  match s with
  | EmptyString => EmptyString
  | String c s' =>
      match skip with
      | S k => replace_from old new s' k
      | O =>
          if String.prefix old s
          then new ++ replace_from old new s' (String.length old - 1)
          else String c (replace_from old new s' 0)
      end
  end.

Definition replace (s old new : string) : string :=
  replace_from old new s 0.

(** [s.split(sep)] for a one-character separator. *)
Fixpoint split (sep : ascii) (s : string) : list string :=
  match s with
  | EmptyString => [EmptyString]
  | String c s' =>
      if Ascii.eqb c sep then EmptyString :: split sep s'
      else match split sep s' with
           | [] => [String c EmptyString]
           | p :: ps => String c p :: ps
           end
  end.

(** [str(z)] for an integer. *)
Definition of_Z (z : Z) : string := NilZero.string_of_int (Z.to_int z).

(** The integer a signed decimal numeral denotes. *)
Definition to_Z (s : string) : option Z :=
  option_map Z.of_int (NilZero.int_of_string s).

End Str.

(** ** Dictionaries *)

Section Dict.
Context {V : Type}.

Definition dict := list (string * V).

(** [d.get(k)], [None] when the key is absent. *)
Fixpoint dict_get (d : dict) (k : string) : option V :=
  match d with
  | [] => None
  | (k', v) :: d' => if String.eqb k' k then Some v else dict_get d' k
  end.

(** [k in d]. *)
Definition dict_mem (d : dict) (k : string) : bool :=
  match dict_get d k with Some _ => true | None => false end.

(** [d[k] = v]. *)
Fixpoint dict_set (d : dict) (k : string) (v : V) : dict :=
  match d with
  | [] => [(k, v)]
  | (k', v') :: d' =>
      if String.eqb k' k then (k, v) :: d' else (k', v') :: dict_set d' k v
  end.

(** [d.keys()]. *)
Definition dict_keys (d : dict) : list string := map fst d.

End Dict.
Arguments dict V : clear implicits.

(** ** Static tables *)

(** Known mismatches between log line names and TF2 internal names. *)
Definition WEAPON_MAPPINGS : dict string :=
  [ ("robot_arm", "robot_arm_kill");
    ("unique_pickaxe", "pickaxe");
    ("world", "skull");
    ("trigger_hurt", "skull");
    ("env_explosion", "skull");
    ("player", "skull");
    ("tf_pumpkin_bomb", "pumpkindeath");
    ("default", "saw_kill");
    ("grenadelauncher", "tf_projectile_pipe");
    ("rocketlauncher", "tf_projectile_rocket");
    ("stickybomb_launcher", "tf_projectile_pipe_remote");
    ("flamethrower", "tf_weapon_flamethrower");
    ("knife", "tf_weapon_knife");
    ("frontier_justice", "frontier_kill");
    ("southern_hospitality", "southern_comfort_kill");
    ("golden_wrench", "wrench_golden");
    ("gunslinger", "robot_arm_kill");
    ("jag", "wrench_jag");
    ("wrangler", "wrangler_kill");
    ("chargin_targe", "demoshield");
    ("loose_cannon", "loose_cannon_impact");
    ("tf_projectile_mechanicalarmorb", "tf_projectile_mechanicalarmor");
    ("baby_face_blaster", "pep_brawlerblaster");
    ("winger", "the_winger");
    ("pretty_boy_pocket_pistol", "pep_pistol");
    ("flying_guillotine", "guillotine");
    ("three_rune_blade", "boston_basher");
    ("sun_on_a_stick", "lava_bat");
    ("fan_o_war", "warfan");
    ("black_box", "blackbox");
    ("beggars_bazooka", "dumpster_device");
    ("beggar", "dumpster_device");
    ("direct_hit", "rocketlauncher_directhit");
    ("original", "quake_rl");
    ("escape_plan", "pickaxe");
    ("equalizer", "pickaxe");
    ("unique_pickaxe_escape", "pickaxe");
    ("dragon_fury", "ai_flamethrower");
    ("neon_annihilator", "annihilator");
    ("third_degree", "thirddegree");
    ("homewrecker", "sledgehammer");
    ("sharpened_volcano_fragment", "lava_axe");
    ("postal_pummeler", "mailbox");
    ("huo_long_heater", "long_heatmaker");
    ("fists", "gloves");
    ("gru", "gloves_running_urgently");
    ("fists_of_steel", "steel_fists");
    ("gas_passer", "gas_blast");
    ("vita_saw", "battleneedle");
    ("overdose", "proto_syringe");
    ("hitman_heatmaker", "pro_rifle");
    ("cleaners_carbine", "pro_smg");
    ("kukri", "club");
    ("bushwacka", "tribalkukri");
    ("big_kill", "samrevolver");
    ("l_etranger", "letranger");
    ("your_eternal_reward", "eternal_reward");
    ("conniver_kunai", "kunai");
    ("half_zatoichi", "demokatana");
    ("conscientious_objector", "nonnonviolent_protest");
    ("taunt_guitar_kill", "taunt_guitar_kill");
    ("backscatter", "back_scatter");
    ("nessie_club", "nessieclub");
    ("horseless_headless_horsemann", "headtaker");
    ("sentry_buster", "ullapool_caber");
    ("holy_mackerel", "holymackerel");
    ("pda_engineer", "saw_kill");
    ("tf_projectile_arrow", "huntsman");
    ("cleaver", "guillotine") ].

(** Aliases (same icon, different log names). *)
Definition WEAPON_ALIASES : dict string :=
  [ ("holymackerel", "holy_mackerel");
    ("force-a-nature", "force_a_nature");
    ("lugermorph", "maxgun");
    ("shotgun_soldier", "shotgun_primary");
    ("shotgun_hwg", "shotgun_primary");
    ("shotgun_pyro", "shotgun_primary");
    ("pistol_scout", "pistol");
    ("pistol_engineer", "pistol");
    ("awper_hand", "sniperrifle");
    ("compound_bow", "huntsman") ].

(** ** Icon definitions *)

(** A killicon definition from mod_textures.txt. *)
Record KilliconDefinition := mkDef {
  name : string;
  sprite : string;
  x : Z;
  y : Z;
  width : Z;
  height : Z
}.

(** ** Name resolver *)

Section Resolver.
Variable mappings : dict string.
Variable aliases : dict string.

(** Step 2: the first suffix whose candidate is a key. *)
Fixpoint try_suffixes (mapped_name : string) (suffixes : list string)
         (definitions : dict KilliconDefinition)
  : option KilliconDefinition :=
  match suffixes with
  | [] => None
  | suffix :: rest =>
      let candidate := (mapped_name ++ suffix)%string in
      match dict_get definitions candidate with
      | Some d => Some d
      | None => try_suffixes mapped_name rest definitions
      end
  end.

(** Step 3: the first definition whose name contains the mapped name
    or is contained in it. *)
Fixpoint partial_match (mapped_name : string)
         (items : dict KilliconDefinition) : option KilliconDefinition :=
  match items with
  | [] => None
  | (def_name, definition) :: rest =>
      if Str.contains mapped_name def_name || Str.contains def_name mapped_name
      then Some definition
      else partial_match mapped_name rest
  end.

(** [find_weapon_icon] over given tables.  The outer [option] is
    [None] when the alias recursion has not returned within [fuel]
    calls; the inner one is the function's [Optional] result. *)
Fixpoint find_weapon_icon_with (fuel : nat) (weapon_name : string)
         (definitions : dict KilliconDefinition)
  : option (option KilliconDefinition) :=
  match fuel with
  | O => None
  | S fuel' =>
      let mapped_name :=
        match dict_get mappings weapon_name with
        | Some m => m
        | None => weapon_name
        end in
      match dict_get definitions mapped_name with
      | Some d => Some (Some d)
      | None =>
          match try_suffixes mapped_name ["_kill"; "death"] definitions with
          | Some d => Some (Some d)
          | None =>
              match partial_match mapped_name definitions with
              | Some d => Some (Some d)
              | None =>
                  match dict_get aliases weapon_name with
                  | Some canonical =>
                      find_weapon_icon_with fuel' canonical definitions
                  | None => Some None
                  end
              end
          end
      end
  end.

End Resolver.

(** [find_weapon_icon] as the script runs it, over its two tables. *)
Definition find_weapon_icon :=
  find_weapon_icon_with WEAPON_MAPPINGS WEAPON_ALIASES.

(** ** Definition parser *)

Module Parser.

Definition dquote : ascii := ascii_of_nat 34.
Definition newline : ascii := ascii_of_nat 10.
Definition backslash : ascii := ascii_of_nat 92.

(** The characters at the head of [s] up to the first double quote,
    when there is one: the run before it and the text after it. *)
Fixpoint until_quote (s : string) : option (string * string) :=
  match s with
  | EmptyString => None
  | String c s' =>
      if Ascii.eqb c dquote then Some (EmptyString, s')
      else match until_quote s' with
           | Some (g, r) => Some (String c g, r)
           | None => None
           end
  end.

(** A quoted, non-empty, quote-free group at the head of [s] (the
    pattern of the two regular expressions): the group and the text
    after its closing quote. *)
Definition quoted (s : string) : option (string * string) :=
  match s with
  | EmptyString => None
  | String c s' =>
      if Ascii.eqb c dquote then
        match until_quote s' with
        | Some (EmptyString, _) => None
        | Some (g, r) => Some (g, r)
        | None => None
        end
      else None
  end.

(** [re.match] of the name pattern on [line]: group 1. *)
Definition match_name (line : string) : option string :=
  option_map fst (quoted line).

(** [re.match] of the property pattern on [prop_line] (a quoted group,
    white space, a quoted group): groups 1 and 2. *)
Definition match_prop (prop_line : string) : option (string * string) :=
  match quoted prop_line with
  | Some (key, String c r) =>
      if Str.isspace c then
        match quoted (Str.lstrip r) with
        | Some (value, _) => Some (key, value)
        | None => None
        end
      else None
  | _ => None
  end.

Definition is_digit (c : ascii) : bool :=
  let n := nat_of_ascii c in ((48 <=? n) && (n <=? 57))%nat.

Definition digit_value (c : ascii) : Z := Z.of_nat (nat_of_ascii c) - 48.

(** Decimal digits, with single underscores allowed between two digits.
    [after_digit] says that the previous character was a digit. *)
Fixpoint digits (s : string) (acc : Z) (after_digit : bool) : option Z :=
  match s with
  | EmptyString => if after_digit then Some acc else None
  | String c s' =>
      if is_digit c then digits s' (10 * acc + digit_value c) true
      else if Ascii.eqb c "_" && after_digit then digits s' acc false
      else None
  end.

(** The white space [int] skips around a numeral: tab to carriage
    return and the space, and the two characters above 127 that
    [str.isspace] accepts; not the separators 28 to 31. *)
Definition int_space (c : ascii) : bool :=
  let n := nat_of_ascii c in
  ((9 <=? n) && (n <=? 13) || (n =? 32) || (n =? 133) || (n =? 160))%nat.

Fixpoint int_lstrip (s : string) : string :=
  match s with
  | String c s' => if int_space c then int_lstrip s' else s
  | EmptyString => EmptyString
  end.

Fixpoint int_rstrip (s : string) : string :=
  match s with
  | EmptyString => EmptyString
  | String c s' =>
      match int_rstrip s' with
      | EmptyString =>
          if int_space c then EmptyString else String c EmptyString
      | r => String c r
      end
  end.

(** [sys.get_int_max_str_digits()], which the script leaves at the
    default of the interpreter. *)
Definition max_str_digits : nat := 4300.

(** The digits of a numeral, underscores left out. *)
Fixpoint digit_count (s : string) : nat :=
  match s with
  | EmptyString => O
  | String c s' => if is_digit c then S (digit_count s') else digit_count s'
  end.

(** A numeral without its sign; one of more than [max_str_digits]
    digits is refused. *)
Definition numeral (ds : string) : option Z :=
  if (max_str_digits <? digit_count ds)%nat then None
  else digits ds 0 false.

(** [int(s)] for a string: white space around, an optional sign,
    decimal digits.  [None] is [ValueError]. *)
Definition py_int (s : string) : option Z :=
  match int_rstrip (int_lstrip s) with
  | String "-" ds => option_map Z.opp (numeral ds)
  | String "+" ds => numeral ds
  | ds => numeral ds
  end.

(** [int(props.get(key, default))]. *)
Definition int_prop (props : dict string) (key : string) (default : Z)
  : option Z :=
  match dict_get props key with
  | Some v => py_int v
  | None => Some default
  end.

(** The body of the [try]: the four coordinates, or [None] when one of
    the conversions raises. *)
Definition coordinates (props : dict string) : option (Z * Z * Z * Z) :=
  match int_prop props "x" 0 with
  | None => None
  | Some x =>
      match int_prop props "y" 0 with
      | None => None
      | Some y =>
          match int_prop props "width" 32 with
          | None => None
          | Some width =>
              match int_prop props "height" 32 with
              | None => None
              | Some height => Some (x, y, width, height)
              end
          end
      end
  end.

(** What a parser has built so far: the definitions, and the names of
    the blocks it printed a warning for. *)
Record state := mkState {
  definitions : dict KilliconDefinition;
  warnings : list string
}.

Definition initial : state := mkState [] [].

(** The end of a block in [parse_mod_textures]: the test on [dfile] and
    what follows it. *)
Definition finish_block (weapon_name : string) (props : dict string)
           (st : state) : state :=
  match dict_get props "dfile" with
  | Some dfile =>
      if Str.startswith dfile "HUD/d_images" then
        let sprite := Str.lower (Str.replace dfile "HUD/" "") in
        match coordinates props with
        | Some (x, y, width, height) =>
            mkState (dict_set (definitions st) weapon_name
                       (mkDef weapon_name sprite x y width height))
                    (warnings st)
        | None => mkState (definitions st) (warnings st ++ [weapon_name])
        end
      else st
  | None => st
  end.

(** [parts[-1]] of [s.split('/')]. *)
Definition last_part (s : string) : string :=
  last (Str.split "/" s) EmptyString.

(** [dfile.replace('\\', '/')]. *)
Fixpoint slashes (s : string) : string :=
  match s with
  | EmptyString => EmptyString
  | String c s' =>
      String (if Ascii.eqb c backslash then "/"%char else c) (slashes s')
  end.

(** The end of a block in [parse_community_mod_textures]. *)
Definition finish_community_block (weapon_name : string)
           (props : dict string) (st : state) : state :=
  match dict_get props "dfile" with
  | Some dfile =>
      if Str.contains "improvedkillicons" (Str.lower dfile) then
        let sprite_file := last_part (slashes dfile) in
        let sprite_name := ("community_" ++ sprite_file)%string in
        match coordinates props with
        | Some (x, y, width, height) =>
            mkState (dict_set (definitions st) weapon_name
                       (mkDef weapon_name sprite_name x y width height))
                    (warnings st)
        | None => st
        end
      else st
  | None => st
  end.

(** The test of a name line in [parse_mod_textures]. *)
Definition is_name_line (line : string) : bool :=
  Str.startswith line (String dquote "") &&
  negb (Str.startswith line (String dquote "/")).

(** The test of a name line in [parse_community_mod_textures]. *)
Definition is_community_name_line (line : string) : bool :=
  Str.startswith line (String dquote "") &&
  negb (Str.startswith line (String dquote "/")) &&
  negb (Str.startswith line "//").

(** [while i < len(lines) and '{' not in lines[i]: i += 1]: the lines
    from the one with the brace on. *)
Fixpoint seek_open_brace (lines : list string) : list string :=
  match lines with
  | [] => []
  | l :: rest =>
      if Str.contains "{" l then lines else seek_open_brace rest
  end.

(** The property loop: the properties read, and the lines from the one
    with the closing brace on (none when the text ends first). *)
Fixpoint collect_props (lines : list string) (props : dict string)
  : dict string * list string :=
  match lines with
  | [] => (props, [])
  | l :: rest =>
      let prop_line := Str.strip l in
      if Str.contains "}" prop_line then (props, lines)
      else
        collect_props rest
          match match_prop prop_line with
          | Some (key, value) => dict_set props (Str.lower key) value
          | None => props
          end
  end.

Section Scan.
Variable name_line : string -> bool.
Variable finish : string -> dict string -> state -> state.

(** The outer [while] loop, shared by the two parsers.  [lines] is
    [lines[i:]]; every turn drops at least one line. *)
Fixpoint scan (fuel : nat) (lines : list string) (st : state)
  : option state :=
  match lines with
  | [] => Some st
  | l :: rest =>
      match fuel with
      | O => None
      | S fuel' =>
          let line := Str.strip l in
          if name_line line then
            match match_name line with
            | Some weapon_name =>
                let opened := tl (seek_open_brace rest) in
                let '(props, closing) := collect_props opened [] in
                scan fuel' (tl closing) (finish weapon_name props st)
            | None => scan fuel' rest st
            end
          else scan fuel' rest st
      end
  end.

End Scan.

(** A quoted token, and a text made of lines. *)
Definition quote (s : string) : string :=
  String dquote (s ++ String dquote "").

Definition text (lines : list string) : string :=
  String.concat (String newline "") lines.

(** [parse_mod_textures], from the decoded text of
    scripts/mod_textures.txt on. *)
Definition parse_mod_textures_from (fuel : nat) (content : string)
  : option state :=
  scan is_name_line finish_block fuel (Str.split newline content) initial.

Definition parse_mod_textures (content : string) : option state :=
  parse_mod_textures_from
    (List.length (Str.split newline content)) content.

(** [parse_community_mod_textures], from the text of the file on. *)
Definition parse_community_mod_textures_from (fuel : nat) (content : string)
  : option state :=
  scan is_community_name_line finish_community_block fuel
       (Str.split newline content) initial.

Definition parse_community_mod_textures (content : string) : option state :=
  parse_community_mod_textures_from
    (List.length (Str.split newline content)) content.

End Parser.

(** ** Sprite packer *)

(** A PIL image, as far as the packer looks at it: its size, which PIL
    never lets be negative. *)
Record Image := mkImage {
  img_size_w : N;
  img_size_h : N
}.

(** [img.width] and [img.height]. *)
Definition img_width (img : Image) : Z := Z.of_N (img_size_w img).
Definition img_height (img : Image) : Z := Z.of_N (img_size_h img).

(** A value of [icons]: [(image, original_width, original_height)]. *)
Definition icon : Type := Image * Z * Z.

(** A value of [positions]: [(x, y, width, height)]. *)
Definition rect : Type := Z * Z * Z * Z.

(** The sheet under construction: its size and the [paste] calls made
    on it, in order, each with the image and its top left corner. *)
Record Sheet := mkSheet {
  sheet_width : Z;
  sheet_height : Z;
  pasted : list (Image * (Z * Z))
}.

Module Packer.

Definition target_width : Z := 512.

(** The sort key, [x[1][0].height]. *)
Definition key (item : string * icon) : Z := img_height (fst (fst (snd item))).

(** [item] goes in front of the first entry that is not strictly
    higher, so entries of one height keep their order. *)
Fixpoint insert (item : string * icon) (l : list (string * icon))
  : list (string * icon) :=
  match l with
  | [] => [item]
  | e :: l' => if key item <? key e then e :: insert item l' else item :: l
  end.

(** [sorted(icons.items(), key=..., reverse=True)]: a stable sort by
    descending height. *)
Definition sorted_icons (icons : dict icon) : list (string * icon) :=
  fold_right insert [] icons.

(** The variables of the first pass. *)
Record cursor := mkCursor {
  current_x : Z;
  current_y : Z;
  row_height : Z;
  max_width : Z;
  positions : dict rect
}.

Definition start : cursor := mkCursor 0 0 0 0 [].

(** The test that moves to the next row. *)
Definition breaks_row (c : cursor) (img : Image) : bool :=
  (current_x c + img_width img >? target_width) && (current_x c >? 0).

(** The cursor after the row test. *)
Definition next_row (c : cursor) (img : Image) : cursor :=
  if breaks_row c img
  then mkCursor 0 (current_y c + row_height c) 0 (max_width c) (positions c)
  else c.

(** One turn of the first pass. *)
Definition place (c : cursor) (item : string * icon) : cursor :=
  let '(weapon_name, (img, _, _)) := item in
  let c' := next_row c img in
  let right := current_x c' + img_width img in
  mkCursor right
           (current_y c')
           (Z.max (row_height c') (img_height img))
           (Z.max (max_width c') right)
           (dict_set (positions c') weapon_name
              (current_x c', current_y c', img_width img, img_height img)).

(** The first pass over a list of items. *)
Definition place_all (c : cursor) (items : list (string * icon)) : cursor :=
  fold_left place items c.

(** The paste loop: one [paste] for each entry of [positions]. *)
Fixpoint paste_all (icons : dict icon) (positions : dict rect)
  : list (Image * (Z * Z)) :=
  match positions with
  | [] => []
  | (weapon_name, (x, y, _, _)) :: rest =>
      match dict_get icons weapon_name with
      | Some (img, _, _) => (img, (x, y)) :: paste_all icons rest
      | None => paste_all icons rest
      end
  end.

(** One turn of the alias loop. *)
Definition add_alias (positions : dict rect) (entry : string * string)
  : dict rect :=
  let '(alias, canonical) := entry in
  match dict_get positions canonical with
  | Some r => dict_set positions alias r
  | None => positions
  end.

Definition add_aliases (positions : dict rect) (aliases : dict string)
  : dict rect :=
  fold_left add_alias aliases positions.

(** The number of images in the row the cursor stands in, once the
    first pass has run over [items] from a cursor [c] whose row holds
    [n] images. *)
Fixpoint row_length (c : cursor) (n : nat) (items : list (string * icon))
  : nat :=
  match items with
  | [] => n
  | item :: rest =>
      row_length (place c item)
                 (if breaks_row c (fst (fst (snd item))) then 1 else S n)%nat
                 rest
  end.

(** Two rects share a pixel-wide area: the usual test on the
    half-open boxes [x, x + width) by [y, y + height). *)
Definition intersect (a b : rect) : Prop :=
  let '(x1, y1, w1, h1) := a in
  let '(x2, y2, w2, h2) := b in
  x1 < x2 + w2 /\ x2 < x1 + w1 /\ y1 < y2 + h2 /\ y2 < y1 + h1.

(** The table [positions] as the first pass leaves it, before the
    alias loop. *)
Definition placements (icons : dict icon) : dict rect :=
  positions (place_all start (sorted_icons icons)).

Definition pack_sprites (icons : dict icon) (aliases : dict string)
  : Sheet * dict rect :=
  match icons with
  | [] => (mkSheet 1 1 [], [])
  | _ =>
      let c := place_all start (sorted_icons icons) in
      let final_height := current_y c + row_height c in
      let final_width := max_width c in
      (mkSheet final_width final_height (paste_all icons (positions c)),
       add_aliases (positions c) aliases)
  end.

End Packer.

(** ** Stylesheet emitter *)

Module Css.

Definition header : list string :=
  [ "/* TF2 Killicons - Auto-generated */";
    "";
    ".killicon {";
    "  display: inline-block;";
    "  background-image: url('killicons.webp');";
    "  background-repeat: no-repeat;";
    "  vertical-align: middle;";
    "}";
    "" ].

(** [s.add(k)] on a set kept as a list without repetition. *)
Definition set_add (s : list string) (k : string) : list string :=
  if existsb (String.eqb k) s then s else s ++ [k].

(** [set(keys)]. *)
Definition set_of (keys : list string) : list string :=
  fold_left set_add keys [].

(** One turn of the loop over [WEAPON_MAPPINGS.items()]; the state is
    [(reverse_mappings, all_weapons)]. *)
Definition add_reverse (positions : dict rect)
           (acc : dict string * list string) (entry : string * string)
  : dict string * list string :=
  let '(original, mapped) := entry in
  if dict_mem positions mapped
  then (dict_set (fst acc) original mapped, set_add (snd acc) original)
  else acc.

Definition collect (mappings : dict string) (positions : dict rect)
  : dict string * list string :=
  fold_left (add_reverse positions) mappings
            ([], set_of (dict_keys positions)).

Fixpoint insert (k : string) (l : list string) : list string :=
  match l with
  | [] => [k]
  | e :: l' => if String.leb k e then k :: l else e :: insert k l'
  end.

(** [sorted(all_weapons)]. *)
Definition sorted (s : list string) : list string := fold_right insert [] s.

(** The rect the loop body settles on for [weapon_name]; [None] is the
    [continue] branch. *)
Definition rect_for (positions : dict rect) (reverse_mappings : dict string)
           (weapon_name : string) : option rect :=
  match dict_get reverse_mappings weapon_name with
  | Some mapped_name => dict_get positions mapped_name
  | None => dict_get positions weapon_name
  end.

(** An offset as the rule writes it: a minus sign, then the number. *)
Definition offset (v : Z) : string := ("-" ++ Str.of_Z v)%string.

(** The six lines of one rule. *)
Definition rule (weapon_name : string) (r : rect) : list string :=
  let '(x, y, width, height) := r in
  [ ".killicon-" ++ weapon_name ++ " {";
    "  width: " ++ Str.of_Z width ++ "px;";
    "  height: " ++ Str.of_Z height ++ "px;";
    "  background-position: " ++ offset x ++ "px " ++ offset y ++ "px;";
    "}";
    "" ]%string.

(** The names that get a rule, each with its rect, in output order. *)
Fixpoint rules (positions : dict rect) (reverse_mappings : dict string)
         (names : list string) : list (string * rect) :=
  match names with
  | [] => []
  | weapon_name :: rest =>
      match rect_for positions reverse_mappings weapon_name with
      | Some r => (weapon_name, r) :: rules positions reverse_mappings rest
      | None => rules positions reverse_mappings rest
      end
  end.

(** The rules of [generate_css] over a given mappings table. *)
Definition rules_with (mappings : dict string) (positions : dict rect)
  : list (string * rect) :=
  let '(reverse_mappings, all_weapons) := collect mappings positions in
  rules positions reverse_mappings (sorted all_weapons).

Definition emitted (positions : dict rect) : list (string * rect) :=
  rules_with WEAPON_MAPPINGS positions.

(** [css_lines] at the end of [generate_css]. *)
Definition generate_css (positions : dict rect) : list string :=
  header ++ flat_map (fun nr => rule (fst nr) (snd nr)) (emitted positions).

End Css.

(** ** Checks and sample data used in the statements *)

(** A list of strings without repetition, as a test. *)
Fixpoint distinct (l : list string) : bool :=
  match l with
  | [] => true
  | k :: l' => negb (existsb (String.eqb k) l') && distinct l'
  end.

(** The alias table of the cycle [A -> B -> A]. *)
Definition cyclic_aliases : dict string := [("A", "B"); ("B", "A")].

(** Sample definitions. *)
Definition sample (n : string) : KilliconDefinition :=
  mkDef n "d_images" 0 0 32 32.

(** Sample images. *)
Definition image (w h : N) : icon := (mkImage w h, Z.of_N w, Z.of_N h).

(** The order [sorted] leaves the icons in: no entry is higher than one
    before it. *)
Definition descending (a b : string * icon) : Prop :=
  Packer.key b <= Packer.key a.

(** Two rects lie apart along one of the axes. *)
Definition separated (a b : rect) : Prop :=
  let '(x1, y1, w1, h1) := a in
  let '(x2, y2, w2, h2) := b in
  x1 + w1 <= x2 \/ x2 + w2 <= x1 \/ y1 + h1 <= y2 \/ y2 + h2 <= y1.

(** Where a recorded rect lies with respect to the cursor: inside the
    sheet so far, and either in the current row, left of the cursor and
    no higher than the row, or above the current row. *)
Definition placed (c : Packer.cursor) (r : rect) : Prop :=
  let '(x, y, w, h) := r in
  0 <= x /\ 0 <= y /\ 0 <= w /\ 0 <= h /\
  x + w <= Packer.max_width c /\
  ((y = Packer.current_y c /\ x + w <= Packer.current_x c /\
    h <= Packer.row_height c)
   \/ y + h <= Packer.current_y c).

(** The invariant of the first pass. *)
Record packing (c : Packer.cursor) : Prop := {
  packing_cursor :
    0 <= Packer.current_x c <= Packer.max_width c /\
    0 <= Packer.current_y c /\ 0 <= Packer.row_height c;
  packing_rects :
    forall n r, dict_get (Packer.positions c) n = Some r -> placed c r;
  packing_apart :
    forall n1 n2 r1 r2, n1 <> n2 ->
      dict_get (Packer.positions c) n1 = Some r1 ->
      dict_get (Packer.positions c) n2 = Some r2 ->
      separated r1 r2
}.

(** An alias table none of whose canonical names is an alias. *)
Definition flat (aliases : dict string) : Prop :=
  forall alias canonical,
    In (alias, canonical) aliases -> dict_get aliases canonical = None.

(** The strict order of [sorted] on names: lexicographic, by code
    point. *)
Definition before (a b : string) : Prop := String.ltb a b = true.

(** A sample table for the emitter. *)
Definition sample_positions : dict rect :=
  [("skull", (0, 0, 32, 32)); ("holymackerel", (32, 0, 64, 32));
   ("holy_mackerel", (96, 0, 16, 16))].

(** [n] times the character [c]. *)
Fixpoint chars (n : nat) (c : ascii) : string :=
  match n with
  | O => EmptyString
  | S n' => String c (chars n' c)
  end.



(** Sample texts: a block with a number that does not convert between
    two good blocks, a block of the community sheets with such a
    number, and a block whose path is in lower case. *)
Definition sample_text : string :=
  Parser.text
    [ Parser.quote "skull";
      "{";
      ("  " ++ Parser.quote "dfile" ++ "  " ++ Parser.quote "HUD/d_images_v2");
      ("  " ++ Parser.quote "x" ++ " " ++ Parser.quote "64");
      "}";
      Parser.quote "bad";
      "{";
      (Parser.quote "dfile" ++ " " ++ Parser.quote "HUD/d_images");
      (Parser.quote "y" ++ " " ++ Parser.quote "abc");
      "}";
      Parser.quote "club";
      "{";
      (Parser.quote "dfile" ++ " " ++ Parser.quote "HUD/d_images");
      (Parser.quote "width" ++ " " ++ Parser.quote "96");
      "}" ].

Definition sample_community_text : string :=
  Parser.text
    [ Parser.quote "bad";
      "{";
      (Parser.quote "dfile" ++ " "
         ++ Parser.quote ("vgui" ++ String Parser.backslash "logos"
                          ++ String Parser.backslash "improvedkillicons"
                          ++ String Parser.backslash "d2"));
      (Parser.quote "y" ++ " " ++ Parser.quote "abc");
      "}";
      Parser.quote "telefrag";
      "{";
      (Parser.quote "dfile" ++ " "
         ++ Parser.quote ("vgui" ++ String Parser.backslash "logos"
                          ++ String Parser.backslash "ImprovedKillIcons"
                          ++ String Parser.backslash "D2"));
      "}" ].


(** ** The run of [main] *)

Module Main.

(** [d.update(other)]: the entries of [other] are stored one by one. *)
Definition update {V : Type} (d other : dict V) : dict V :=
  fold_left (fun acc entry => dict_set acc (fst entry) (snd entry)) other d.

(** [find_weapon_icon] as [main] calls it; over the tables of the
    script two calls are the most a resolution makes. *)
Definition resolve (weapon_name : string)
           (definitions : dict KilliconDefinition)
  : option KilliconDefinition :=
  match find_weapon_icon 2 weapon_name definitions with
  | Some r => r
  | None => None
  end.

(** What the extraction loop builds: [icons] and [missing]. *)
Record extraction := mkExtraction {
  icons : dict icon;
  missing : list string
}.

Section Extract.
(** [sprite.crop(box)] of PIL, [None] when it raises. *)
Variable crop : Image -> Z * Z * Z * Z -> option Image.
Variable sprites : dict Image.

(** The box [main] crops for a definition. *)
Definition box (d : KilliconDefinition) : Z * Z * Z * Z :=
  (x d, y d, x d + width d, y d + height d).

(** One turn of the loop over [weapons]. *)
Definition extract_one (definitions : dict KilliconDefinition)
           (acc : extraction) (weapon_name : string) : extraction :=
  match resolve weapon_name definitions with
  | None => mkExtraction (icons acc) (missing acc ++ [weapon_name])
  | Some definition =>
      match dict_get sprites (sprite definition) with
      | None => acc
      | Some sheet =>
          match crop sheet (box definition) with
          | Some icon =>
              mkExtraction
                (dict_set (icons acc) weapon_name
                   (icon, width definition, height definition))
                (missing acc)
          | None => acc
          end
      end
  end.

(** The loop over [list(definitions.keys())]. *)
Definition extract (definitions : dict KilliconDefinition) : extraction :=
  fold_left (extract_one definitions) (dict_keys definitions)
            (mkExtraction [] []).

(** The sheet and the table [main] hands to [generate_css]. *)
Definition packed (definitions : dict KilliconDefinition)
  : Sheet * dict rect :=
  Packer.pack_sprites (icons (extract definitions)) WEAPON_ALIASES.

(** The lines of the stylesheet [main] writes. *)
Definition stylesheet (definitions : dict KilliconDefinition) : list string :=
  Css.generate_css (snd (packed definitions)).

End Extract.

End Main.

(** ** More notions used in the statements *)

(** The entry the extraction loop stores for a name, when it stores
    one: the name resolves, the sheet of the definition is loaded and
    the crop goes through. *)
Definition icon_for (crop : Image -> Z * Z * Z * Z -> option Image)
           (sprites : dict Image) (definitions : dict KilliconDefinition)
           (weapon_name : string) : option icon :=
  match Main.resolve weapon_name definitions with
  | None => None
  | Some d =>
      match dict_get sprites (sprite d) with
      | None => None
      | Some sheet =>
          match crop sheet (Main.box d) with
          | Some i => Some (i, width d, height d)
          | None => None
          end
      end
  end.

(** A crop as PIL documents it: the region has the size of the box,
    and a box turned inside out is refused. *)
Definition sample_crop (img : Image) (b : Z * Z * Z * Z) : option Image :=
  let '(x0, y0, x1, y1) := b in
  if (x1 <? x0) || (y1 <? y0) then None
  else Some (mkImage (Z.to_N (x1 - x0)) (Z.to_N (y1 - y0))).

(** Sample sheets and definitions for a run. *)
Definition sample_sprites : dict Image :=
  [("d_images", mkImage 512 512)].

Definition sample_definitions : dict KilliconDefinition :=
  [("skull", mkDef "skull" "d_images" 0 0 32 32);
   ("world", mkDef "world" "d_images" 32 0 64 32);
   ("telefrag", mkDef "telefrag" "community_d" 0 0 32 32);
   ("sniperrifle", mkDef "sniperrifle" "d_images" 0 32 96 32)].

(** Every key of a table of definitions is the name of its entry, and
    no key comes twice. *)
Definition keyed_by_name (defs : dict KilliconDefinition) : Prop :=
  NoDup (dict_keys defs) /\ forall k d, In (k, d) defs -> name d = k.

(** A string [str.lower] leaves as it is. *)
Definition lower_case (s : string) : Prop := Str.lower s = s.

(** * Properties *)

(** ** Dictionaries *)

Section DictFacts.
Context {V : Type}.
Implicit Types (d : dict V) (k : string) (v : V).

Lemma dict_get_set_same d k v : dict_get (dict_set d k v) k = Some v.
Proof.
  induction d as [|[k' v'] d IH]; simpl.
  - now rewrite String.eqb_refl.
  - destruct (String.eqb k' k) eqn:E; simpl.
    + now rewrite String.eqb_refl.
    + now rewrite E.
Qed.

Lemma dict_get_set_other d k k' v :
  k <> k' -> dict_get (dict_set d k v) k' = dict_get d k'.
Proof.
  intros Hne. induction d as [|[k0 v0] d IH]; simpl.
  - destruct (String.eqb_spec k k'); congruence.
  - destruct (String.eqb_spec k0 k) as [->|Hk]; simpl.
    + destruct (String.eqb_spec k k'); congruence.
    + now rewrite IH.
Qed.

Lemma dict_get_set d k k' v :
  dict_get (dict_set d k v) k' =
  if String.eqb k k' then Some v else dict_get d k'.
Proof.
  destruct (String.eqb_spec k k') as [->|Hne].
  - apply dict_get_set_same.
  - now apply dict_get_set_other.
Qed.

Lemma dict_get_In d k v : dict_get d k = Some v -> In (k, v) d.
Proof.
  induction d as [|[k' v'] d IH]; simpl; [discriminate|].
  destruct (String.eqb_spec k' k) as [->|_].
  - intros [= ->]. now left.
  - intros H. right. now apply IH.
Qed.

Lemma dict_get_None d k : dict_get d k = None <-> ~ In k (dict_keys d).
Proof.
  induction d as [|[k' v'] d IH]; simpl.
  - tauto.
  - destruct (String.eqb_spec k' k) as [->|Hne].
    + split; [discriminate | intros H; exfalso; apply H; now left].
    + rewrite IH. unfold dict_keys. tauto.
Qed.

Lemma In_dict_get d k v :
  NoDup (dict_keys d) -> In (k, v) d -> dict_get d k = Some v.
Proof.
  induction d as [|[k' v'] d IH]; simpl; [tauto|].
  intros Hnd [[= -> ->]|Hin].
  - now rewrite String.eqb_refl.
  - inversion_clear Hnd as [|? ? Hk Hd].
    destruct (String.eqb_spec k' k) as [->|_]; [|now apply IH].
    exfalso. apply Hk. change (In (fst (k, v)) (map fst d)). now apply in_map.
Qed.

Lemma dict_set_fresh d k v :
  dict_get d k = None -> dict_set d k v = (d ++ [(k, v)])%list.
Proof.
  induction d as [|[k' v'] d IH]; simpl; [reflexivity|].
  destruct (String.eqb k' k); [discriminate|].
  intros H. now rewrite IH.
Qed.

End DictFacts.

Lemma distinct_NoDup l : distinct l = true -> NoDup l.
Proof.
  induction l as [|k l IH]; simpl; [constructor|].
  rewrite andb_true_iff, negb_true_iff. intros [Hk Hl].
  constructor; [|now apply IH].
  intros Hin. apply not_true_iff_false in Hk. apply Hk.
  apply existsb_exists. exists k. split; [assumption | apply String.eqb_refl].
Qed.

Lemma WEAPON_MAPPINGS_keys : NoDup (dict_keys WEAPON_MAPPINGS).
Proof. apply distinct_NoDup. vm_compute. reflexivity. Qed.

Lemma WEAPON_ALIASES_keys : NoDup (dict_keys WEAPON_ALIASES).
Proof. apply distinct_NoDup. vm_compute. reflexivity. Qed.

(** No canonical name of the alias table is itself an alias. *)
Lemma WEAPON_ALIASES_flat alias canonical :
  In (alias, canonical) WEAPON_ALIASES ->
  dict_get WEAPON_ALIASES canonical = None.
Proof.
  assert (H : forallb (fun e => negb (dict_mem WEAPON_ALIASES (snd e)))
                      WEAPON_ALIASES = true) by (vm_compute; reflexivity).
  rewrite forallb_forall in H. intros Hin. specialize (H _ Hin).
  cbn [snd] in H. unfold dict_mem in H.
  now destruct (dict_get WEAPON_ALIASES canonical).
Qed.

(** ** Strings *)

Lemma prefix_append a r : String.prefix a (a ++ r) = true.
Proof.
  induction a as [|c a IH]; simpl; [now destruct r|].
  destruct (ascii_dec c c); [assumption | congruence].
Qed.

Lemma prefix_split a b :
  String.prefix a b = true -> exists r, b = (a ++ r)%string.
Proof.
  revert b. induction a as [|c a IH]; intros b.
  - intros _. now exists b.
  - destruct b as [|c' b]; simpl; [discriminate|].
    destruct (ascii_dec c c') as [<-|]; [|discriminate].
    intros H. destruct (IH _ H) as [r ->]. now exists r.
Qed.

(** [Str.contains] is the substring test. *)
Lemma contains_spec needle hay :
  Str.contains needle hay = true <->
  exists l r, hay = (l ++ needle ++ r)%string.
Proof.
  split.
  - induction hay as [|c hay IH].
    + unfold Str.contains. rewrite orb_false_r. intros H.
      destruct (prefix_split _ _ H) as [r Hr]. now exists EmptyString, r.
    + change (Str.contains needle (String c hay))
        with (String.prefix needle (String c hay) || Str.contains needle hay).
      rewrite orb_true_iff. intros [H|H].
      * destruct (prefix_split _ _ H) as [r ->]. now exists EmptyString, r.
      * destruct (IH H) as (l & r & ->). now exists (String c l), r.
  - intros (l & r & ->). induction l as [|c l IH].
    + change ("" ++ needle ++ r)%string with (needle ++ r)%string.
      pose proof (prefix_append needle r) as Hp.
      destruct (needle ++ r)%string; cbn [Str.contains]; now rewrite Hp.
    + change (Str.contains needle (String c (l ++ needle ++ r)) = true).
      cbn [Str.contains]. rewrite IH. apply orb_true_r.
Qed.

Lemma contains_empty hay : Str.contains "" hay = true.
Proof. destruct hay; reflexivity. Qed.

(** ** Name resolver *)

Section ResolverFacts.
Variables mappings aliases : dict string.

Lemma find_weapon_icon_unfold fuel weapon_name defs :
  find_weapon_icon_with mappings aliases (S fuel) weapon_name defs =
  let mapped_name :=
    match dict_get mappings weapon_name with
    | Some m => m
    | None => weapon_name
    end in
  match dict_get defs mapped_name with
  | Some d => Some (Some d)
  | None =>
      match try_suffixes mapped_name ["_kill"; "death"] defs with
      | Some d => Some (Some d)
      | None =>
          match partial_match mapped_name defs with
          | Some d => Some (Some d)
          | None =>
              match dict_get aliases weapon_name with
              | Some canonical =>
                  find_weapon_icon_with mappings aliases fuel canonical defs
              | None => Some None
              end
          end
      end
  end.
Proof. reflexivity. Qed.

Lemma partial_match_first mapped before n d after :
  (forall n' d', In (n', d') before ->
     Str.contains mapped n' = false /\ Str.contains n' mapped = false) ->
  Str.contains mapped n = true \/ Str.contains n mapped = true ->
  partial_match mapped (before ++ (n, d) :: after)%list = Some d.
Proof.
  intros Hb Hn. induction before as [|[n' d'] before IH]; simpl.
  - destruct Hn as [-> | ->]; [reflexivity | now rewrite orb_true_r].
  - destruct (Hb n' d' (or_introl eq_refl)) as [-> ->]. simpl.
    apply IH. intros n0 d0 Hin. apply (Hb n0 d0). now right.
Qed.

Lemma partial_match_none mapped defs :
  (forall n d, In (n, d) defs ->
     Str.contains mapped n = false /\ Str.contains n mapped = false) ->
  partial_match mapped defs = None.
Proof.
  induction defs as [|[n d] defs IH]; simpl; [reflexivity|].
  intros H. destruct (H n d (or_introl eq_refl)) as [-> ->]. simpl.
  apply IH. intros n0 d0 Hin. apply (H n0 d0). now right.
Qed.

(** Extra fuel does not change a result. *)
Lemma find_weapon_icon_fuel_mono fuel weapon_name defs r :
  find_weapon_icon_with mappings aliases fuel weapon_name defs = Some r ->
  find_weapon_icon_with mappings aliases (S fuel) weapon_name defs = Some r.
Proof.
  revert weapon_name. induction fuel as [|fuel IH]; intros weapon_name.
  - discriminate.
  - rewrite (find_weapon_icon_unfold (S fuel)), (find_weapon_icon_unfold fuel).
    cbv zeta.
    destruct (dict_get defs _); [trivial|].
    destruct (try_suffixes _ _ _); [trivial|].
    destruct (partial_match _ _); [trivial|].
    destruct (dict_get aliases weapon_name); [apply IH | trivial].
Qed.

End ResolverFacts.

Lemma cyclic_aliases_out_of_fuel fuel weapon_name :
  weapon_name = "A" \/ weapon_name = "B" ->
  find_weapon_icon_with WEAPON_MAPPINGS cyclic_aliases fuel weapon_name [] = None.
Proof.
  revert weapon_name. induction fuel as [|fuel IH]; intros weapon_name H.
  - reflexivity.
  - rewrite find_weapon_icon_unfold.
    destruct H as [-> | ->]; cbv zeta.
    + change (dict_get WEAPON_MAPPINGS "A") with (@None string).
      change (dict_get cyclic_aliases "A") with (Some "B").
      cbn. apply IH. now right.
    + change (dict_get WEAPON_MAPPINGS "B") with (@None string).
      change (dict_get cyclic_aliases "B") with (Some "A").
      cbn. apply IH. now left.
Qed.

(** C1, as stated, fails: over the alias table [A -> B -> A] and no
    definitions, resolving [A] returns NotFound for no amount of fuel;
    the recursion has no depth bound and never comes back. *)
Lemma alias_cycle_is_not_cut :
  ~ exists fuel,
      find_weapon_icon_with WEAPON_MAPPINGS cyclic_aliases fuel "A" []
      = Some None.
Proof.
  intros [fuel H]. rewrite cyclic_aliases_out_of_fuel in H; [discriminate|].
  now left.
Qed.

(** Over any tables: when each name of a list misses steps 1 to 3 and
    has an alias in the list, resolving a name of the list never
    returns. *)
Lemma alias_loop_never_returns mappings aliases defs (cycle : list string) :
  (forall n, In n cycle ->
     let mapped :=
       match dict_get mappings n with
       | Some m => m
       | None => n
       end in
     dict_get defs mapped = None /\
     dict_get defs (mapped ++ "_kill") = None /\
     dict_get defs (mapped ++ "death") = None /\
     (forall k d, In (k, d) defs ->
        Str.contains mapped k = false /\ Str.contains k mapped = false) /\
     exists canonical,
       dict_get aliases n = Some canonical /\ In canonical cycle) ->
  forall fuel n, In n cycle ->
    find_weapon_icon_with mappings aliases fuel n defs = None.
Proof.
  intros Hcycle. induction fuel as [|fuel IH]; intros n Hn; [reflexivity|].
  rewrite find_weapon_icon_unfold.
  destruct (Hcycle n Hn) as (H1 & H2 & H3 & H4 & c & Hc & Hin).
  cbv zeta in *. rewrite H1. cbn [try_suffixes]. rewrite H2, H3.
  rewrite (partial_match_none _ defs H4), Hc. now apply IH.
Qed.

(** C1, amended: over the alias table of the script, where no canonical
    name is an alias again, the alias fallback recurses at most once:
    every resolution returns, a definition or NotFound, within two
    calls, and more fuel gives the same result.  The recursion has no
    depth bound of its own: over any alias table, when every name on a
    cycle of aliases misses steps 1 to 3, resolving a name on the cycle
    never returns, whatever the fuel, so it is not NotFound. *)
Theorem find_weapon_icon_returns :
  (forall weapon_name defs,
     exists r, forall fuel,
       find_weapon_icon (S (S fuel)) weapon_name defs = Some r) /\
  (forall mappings aliases defs (cycle : list string),
     (forall n, In n cycle ->
        let mapped :=
          match dict_get mappings n with
          | Some m => m
          | None => n
          end in
        dict_get defs mapped = None /\
        dict_get defs (mapped ++ "_kill") = None /\
        dict_get defs (mapped ++ "death") = None /\
        (forall k d, In (k, d) defs ->
           Str.contains mapped k = false /\ Str.contains k mapped = false) /\
        exists canonical,
          dict_get aliases n = Some canonical /\ In canonical cycle) ->
     forall fuel n, In n cycle ->
       find_weapon_icon_with mappings aliases fuel n defs = None).
Proof.
  split; [|exact alias_loop_never_returns].
  intros weapon_name defs.
  assert (Hmono : forall k fuel name r,
             find_weapon_icon fuel name defs = Some r ->
             find_weapon_icon (k + fuel) name defs = Some r).
  { induction k as [|k IHk]; intros fuel name r H; [exact H|].
    apply find_weapon_icon_fuel_mono. now apply IHk. }
  assert (Htwo : exists r, find_weapon_icon 2 weapon_name defs = Some r).
  { unfold find_weapon_icon. rewrite find_weapon_icon_unfold. cbv zeta.
    destruct (dict_get defs _); [eauto|].
    destruct (try_suffixes _ _ _); [eauto|].
    destruct (partial_match _ _); [eauto|].
    destruct (dict_get WEAPON_ALIASES weapon_name) as [canonical|] eqn:Ha;
      [|eauto].
    apply dict_get_In, WEAPON_ALIASES_flat in Ha.
    rewrite find_weapon_icon_unfold. cbv zeta. rewrite Ha.
    destruct (dict_get defs _); [eauto|].
    destruct (try_suffixes _ _ _); [eauto|].
    destruct (partial_match _ _); eauto. }
  destruct Htwo as [r Hr]. exists r. intros fuel.
  replace (S (S fuel)) with (fuel + 2)%nat by lia. now apply Hmono.
Qed.

Lemma find_weapon_icon_returns_witness :
  let defs := [("skull", sample "skull")] in
  find_weapon_icon_with WEAPON_MAPPINGS cyclic_aliases 9 "A" defs = None /\
  find_weapon_icon_with WEAPON_MAPPINGS cyclic_aliases 9 "B" [] = None.
Proof.
  intros defs. destruct find_weapon_icon_returns as [_ Hloop]. split.
  - apply (Hloop WEAPON_MAPPINGS cyclic_aliases defs ["A"; "B"]);
      [|now left].
    intros n [<-|[<-|[]]]; cbv zeta.
    + refine (conj eq_refl (conj eq_refl (conj eq_refl (conj _ _)))).
      * intros k d [[= <- <-]|[]]. split; reflexivity.
      * exists "B". split; [reflexivity | right; now left].
    + refine (conj eq_refl (conj eq_refl (conj eq_refl (conj _ _)))).
      * intros k d [[= <- <-]|[]]. split; reflexivity.
      * exists "A". split; [reflexivity | now left].
  - apply (Hloop WEAPON_MAPPINGS cyclic_aliases [] ["A"; "B"]);
      [|right; now left].
    intros n [<-|[<-|[]]]; cbv zeta.
    + refine (conj eq_refl (conj eq_refl (conj eq_refl (conj _ _)))).
      * intros k d [].
      * exists "B". split; [reflexivity | right; now left].
    + refine (conj eq_refl (conj eq_refl (conj eq_refl (conj _ _)))).
      * intros k d [].
      * exists "A". split; [reflexivity | now left].
Defined.

(** C3: the resolver translates the name through the mappings table
    and then takes the first hit of: the mapped name itself; the mapped
    name with [_kill], then with [death]; the first definition, in
    iteration order, whose name contains the mapped name or is
    contained in it; the alias of the original name, resolved in turn;
    and NotFound when nothing hits.  With [world] mapped to [skull]
    and [skull] the only definition, [world] resolves to it. *)
Theorem find_weapon_icon_strategy :
  (forall mappings aliases fuel weapon_name defs,
    let mapped :=
      match dict_get mappings weapon_name with
      | Some m => m
      | None => weapon_name
      end in
    let result :=
      find_weapon_icon_with mappings aliases (S fuel) weapon_name defs in
    let no_exact := dict_get defs mapped = None in
    let no_suffix :=
      dict_get defs (mapped ++ "_kill") = None /\
      dict_get defs (mapped ++ "death") = None in
    let no_partial :=
      forall n d, In (n, d) defs ->
        Str.contains mapped n = false /\ Str.contains n mapped = false in
    (forall d, dict_get defs mapped = Some d -> result = Some (Some d)) /\
    (forall d, no_exact ->
       dict_get defs (mapped ++ "_kill") = Some d ->
       result = Some (Some d)) /\
    (forall d, no_exact ->
       dict_get defs (mapped ++ "_kill") = None ->
       dict_get defs (mapped ++ "death") = Some d ->
       result = Some (Some d)) /\
    (forall before n d after, no_exact -> no_suffix ->
       defs = (before ++ (n, d) :: after)%list ->
       (forall n' d', In (n', d') before ->
          Str.contains mapped n' = false /\ Str.contains n' mapped = false) ->
       Str.contains mapped n = true \/ Str.contains n mapped = true ->
       result = Some (Some d)) /\
    (forall canonical, no_exact -> no_suffix -> no_partial ->
       dict_get aliases weapon_name = Some canonical ->
       result = find_weapon_icon_with mappings aliases fuel canonical defs) /\
    (no_exact -> no_suffix -> no_partial ->
       dict_get aliases weapon_name = None ->
       result = Some None)) /\
  (forall aliases fuel,
    let skull := mkDef "skull" "d_images" 0 0 32 32 in
    find_weapon_icon_with [("world", "skull")] aliases (S fuel)
      "world" [("skull", skull)] = Some (Some skull) /\
    find_weapon_icon (S fuel) "world" [("skull", skull)] = Some (Some skull)).
Proof.
  split.
  - intros mappings aliases fuel weapon_name defs mapped result
           no_exact no_suffix no_partial.
    subst result no_exact no_suffix no_partial.
    rewrite find_weapon_icon_unfold. cbv zeta. fold mapped.
    cbn [try_suffixes].
    repeat split.
    + intros d ->. reflexivity.
    + intros d -> ->. reflexivity.
    + intros d -> -> ->. reflexivity.
    + intros before n d after -> [-> ->] -> Hb Hn.
      now rewrite (partial_match_first mapped before n d after Hb Hn).
    + intros canonical -> [-> ->] Hp ->.
      now rewrite (partial_match_none mapped defs Hp).
    + intros -> [-> ->] Hp ->.
      now rewrite (partial_match_none mapped defs Hp).
  - intros aliases fuel skull. split; reflexivity.
Qed.

(** C10: over definitions that are not empty and have none of the
    keys [''], ['_kill'] and ['death'], the empty name resolves to the
    first definition in iteration order, as the empty string is a
    substring of every name. *)
Theorem find_weapon_icon_empty_name fuel n d rest :
  let defs := (n, d) :: rest in
  dict_get defs "" = None ->
  dict_get defs "_kill" = None ->
  dict_get defs "death" = None ->
  find_weapon_icon (S fuel) "" defs = Some (Some d).
Proof.
  intros defs H0 H1 H2. unfold find_weapon_icon.
  rewrite find_weapon_icon_unfold.
  change (dict_get WEAPON_MAPPINGS "") with (@None string).
  cbv beta iota zeta. rewrite H0. cbn [try_suffixes].
  change ("" ++ "_kill")%string with "_kill".
  change ("" ++ "death")%string with "death".
  rewrite H1, H2. subst defs. cbn [partial_match].
  now rewrite contains_empty.
Qed.

Lemma find_weapon_icon_strategy_witness :
  find_weapon_icon 1 "world" [("skull", sample "skull")]
    = Some (Some (sample "skull")) /\
  find_weapon_icon 1 "saw" [("saw_kill", sample "saw_kill")]
    = Some (Some (sample "saw_kill")) /\
  find_weapon_icon 1 "pumpkin" [("pumpkindeath", sample "pumpkindeath")]
    = Some (Some (sample "pumpkindeath")) /\
  find_weapon_icon 1 "pickaxe"
      [("skull", sample "skull"); ("unique_pickaxe", sample "unique_pickaxe")]
    = Some (Some (sample "unique_pickaxe")) /\
  find_weapon_icon 2 "awper_hand" [("sniperrifle", sample "sniperrifle")]
    = find_weapon_icon 1 "sniperrifle" [("sniperrifle", sample "sniperrifle")] /\
  find_weapon_icon 1 "bat" [("skull", sample "skull")] = Some None.
Proof.
  pose proof (proj1 find_weapon_icon_strategy WEAPON_MAPPINGS WEAPON_ALIASES)
    as S.
  assert (Hno : forall k : string,
            Str.contains k "skull" = false /\ Str.contains "skull" k = false ->
            forall n d, In (n, d) [("skull", sample "skull")] ->
            Str.contains k n = false /\ Str.contains n k = false).
  { intros k Hk n d [[= <- <-]|[]]. exact Hk. }
  refine (conj _ (conj _ (conj _ (conj _ (conj _ _))))).
  - destruct (S 0%nat "world" [("skull", sample "skull")]) as (H & _).
    apply H. reflexivity.
  - destruct (S 0%nat "saw" [("saw_kill", sample "saw_kill")])
      as (_ & H & _).
    apply H; reflexivity.
  - destruct (S 0%nat "pumpkin" [("pumpkindeath", sample "pumpkindeath")])
      as (_ & _ & H & _).
    apply H; reflexivity.
  - destruct (S 0%nat "pickaxe"
                [("skull", sample "skull");
                 ("unique_pickaxe", sample "unique_pickaxe")])
      as (_ & _ & _ & H & _).
    apply (H [("skull", sample "skull")] "unique_pickaxe" _ []).
    + reflexivity.
    + split; reflexivity.
    + reflexivity.
    + apply Hno. split; reflexivity.
    + left. reflexivity.
  - destruct (S 1%nat "awper_hand" [("sniperrifle", sample "sniperrifle")])
      as (_ & _ & _ & _ & H & _).
    apply H.
    + reflexivity.
    + split; reflexivity.
    + intros n d [[= <- <-]|[]]. split; reflexivity.
    + reflexivity.
  - destruct (S 0%nat "bat" [("skull", sample "skull")])
      as (_ & _ & _ & _ & _ & H).
    apply H.
    + reflexivity.
    + split; reflexivity.
    + apply Hno. split; reflexivity.
    + reflexivity.
Defined.

Lemma find_weapon_icon_empty_name_witness :
  let defs := [("skull", sample "skull"); ("club", sample "club")] in
  dict_get defs "" = None /\
  dict_get defs "_kill" = None /\
  dict_get defs "death" = None /\
  find_weapon_icon 1 "" defs = Some (Some (sample "skull")).
Proof.
  refine (conj eq_refl (conj eq_refl (conj eq_refl _))).
  apply (find_weapon_icon_empty_name 0 "skull" (sample "skull")
           [("club", sample "club")]); reflexivity.
Defined.

(** ** Sprite packer *)

Module PackerFacts.
Import Packer.

Lemma img_width_nonneg img : 0 <= img_width img.
Proof. unfold img_width. lia. Qed.

Lemma img_height_nonneg img : 0 <= img_height img.
Proof. unfold img_height. lia. Qed.

(** *** The sort *)

Lemma insert_perm item l : Permutation (insert item l) (item :: l).
Proof.
  induction l as [|e l IH]; simpl; [reflexivity|].
  destruct (key item <? key e); [|reflexivity].
  rewrite IH. apply perm_swap.
Qed.

Lemma sorted_icons_perm icons : Permutation (sorted_icons icons) icons.
Proof.
  induction icons as [|item icons IH]; simpl; [reflexivity|].
  rewrite insert_perm. now constructor.
Qed.

Lemma insert_descending item l :
  StronglySorted descending l -> StronglySorted descending (insert item l).
Proof.
  induction 1 as [|e l Hl IH He]; simpl.
  - repeat constructor.
  - destruct (Z.ltb_spec (key item) (key e)) as [Hlt|Hge].
    + constructor; [assumption|].
      rewrite insert_perm. constructor; [unfold descending; lia | assumption].
    + constructor; [now constructor|].
      constructor; [unfold descending; lia|].
      eapply Forall_impl; [|exact He].
      unfold descending. intros; lia.
Qed.

Lemma sorted_icons_descending icons :
  StronglySorted descending (sorted_icons icons).
Proof.
  induction icons as [|item icons IH]; simpl; [constructor|].
  now apply insert_descending.
Qed.

(** *** The first pass *)

Lemma place_all_cons c item items :
  place_all c (item :: items) = place_all (place c item) items.
Proof. reflexivity. Qed.

Lemma place_all_app c l1 l2 :
  place_all c (l1 ++ l2)%list = place_all (place_all c l1) l2.
Proof. apply fold_left_app. Qed.

Lemma place_position c n ic :
  dict_get (positions (place c (n, ic))) n =
  Some (current_x (next_row c (fst (fst ic))),
        current_y (next_row c (fst (fst ic))),
        img_width (fst (fst ic)), img_height (fst (fst ic))).
Proof. destruct ic as [[img ow] oh]. simpl. apply dict_get_set_same. Qed.

Lemma place_other c item n :
  fst item <> n ->
  dict_get (positions (place c item)) n = dict_get (positions c) n.
Proof.
  destruct item as [m [[img ow] oh]]. simpl. intros Hne.
  rewrite dict_get_set_other by assumption.
  unfold next_row. now destruct (breaks_row c img).
Qed.

Lemma place_all_other items : forall c n,
  ~ In n (map fst items) ->
  dict_get (positions (place_all c items)) n = dict_get (positions c) n.
Proof.
  induction items as [|item items IH]; intros c n Hn; [reflexivity|].
  rewrite place_all_cons, IH by (simpl in Hn; tauto).
  apply place_other. simpl in Hn. tauto.
Qed.

Lemma place_all_keeps items : forall c n,
  dict_get (positions c) n <> None ->
  dict_get (positions (place_all c items)) n <> None.
Proof.
  induction items as [|item items IH]; intros c n Hn; [assumption|].
  rewrite place_all_cons.
  apply IH. destruct (string_dec (fst item) n) as [<-|Hne].
  - destruct item as [m ic]. cbn [fst]. now rewrite place_position.
  - now rewrite place_other.
Qed.

Lemma place_all_covers items : forall c n,
  In n (map fst items) ->
  dict_get (positions (place_all c items)) n <> None.
Proof.
  induction items as [|item items IH]; intros c n Hn; [destruct Hn|].
  rewrite place_all_cons.
  destruct (string_dec (fst item) n) as [<-|Hne].
  - apply place_all_keeps. destruct item as [m ic]. cbn [fst].
    now rewrite place_position.
  - apply IH. destruct Hn; [contradiction | assumption].
Qed.

(** *** The invariant *)

Lemma packing_start : packing start.
Proof.
  constructor; simpl; [lia | discriminate | discriminate].
Qed.

Lemma packing_next_row c img : packing c -> packing (next_row c img).
Proof.
  intros [Hc Hr Ha]. unfold next_row.
  destruct (breaks_row c img); [|now constructor].
  constructor; simpl; [lia | | exact Ha].
  intros n [[[x y] w] h] Hn. specialize (Hr n _ Hn).
  unfold placed in *. simpl. lia.
Qed.

Lemma packing_place c item : packing c -> packing (place c item).
Proof.
  intros Hc. destruct item as [m [[img ow] oh]].
  apply (packing_next_row _ img) in Hc.
  unfold place. set (c' := next_row c img) in *.
  destruct Hc as [Hc Hr Ha].
  pose proof (img_width_nonneg img). pose proof (img_height_nonneg img).
  assert (Hnew : forall n r, n <> m -> dict_get (positions c') n = Some r ->
                   separated r (current_x c', current_y c',
                                img_width img, img_height img)).
  { intros n [[[x y] w] h] _ Hn. specialize (Hr n _ Hn).
    unfold placed, separated in *. lia. }
  constructor; simpl.
  - lia.
  - intros n r. rewrite dict_get_set.
    destruct (String.eqb_spec m n) as [->|Hne].
    + intros [= <-]. unfold placed. simpl. lia.
    + intros Hn. specialize (Hr n _ Hn). destruct r as [[[x y] w] h].
      unfold placed in *. simpl. lia.
  - intros n1 n2 r1 r2 Hne. rewrite !dict_get_set.
    destruct (String.eqb_spec m n1) as [<-|H1];
      destruct (String.eqb_spec m n2) as [<-|H2].
    + contradiction.
    + intros [= <-] Hn2. specialize (Hnew n2 r2 (not_eq_sym H2) Hn2).
      destruct r2 as [[[x y] w] h]. unfold separated in *. lia.
    + intros Hn1 [= <-]. now apply (Hnew n1 r1 (not_eq_sym H1)).
    + now apply Ha.
Qed.

Lemma packing_place_all items : forall c,
  packing c -> packing (place_all c items).
Proof.
  induction items as [|item items IH]; intros c Hc; [assumption|].
  rewrite place_all_cons. apply IH. now apply packing_place.
Qed.

Lemma separated_not_intersect a b : separated a b -> ~ intersect a b.
Proof.
  destruct a as [[[x1 y1] w1] h1], b as [[[x2 y2] w2] h2].
  unfold separated, intersect. lia.
Qed.

(** *** The alias loop *)

Lemma add_alias_other pos entry n :
  fst entry <> n -> dict_get (add_alias pos entry) n = dict_get pos n.
Proof.
  destruct entry as [a c]. simpl. intros Hne.
  destruct (dict_get pos c); [now apply dict_get_set_other | reflexivity].
Qed.

Lemma add_aliases_cons pos entry aliases :
  add_aliases pos (entry :: aliases) = add_aliases (add_alias pos entry) aliases.
Proof. reflexivity. Qed.

Lemma add_aliases_other aliases : forall pos n,
  ~ In n (dict_keys aliases) ->
  dict_get (add_aliases pos aliases) n = dict_get pos n.
Proof.
  induction aliases as [|entry aliases IH]; intros pos n Hn; [reflexivity|].
  rewrite add_aliases_cons, IH by (simpl in Hn; tauto).
  apply add_alias_other. simpl in Hn. tauto.
Qed.

(** Every rect of the final table is a rect of the first pass. *)
Lemma add_aliases_from aliases : forall pos n r,
  dict_get (add_aliases pos aliases) n = Some r ->
  exists n', dict_get pos n' = Some r.
Proof.
  induction aliases as [|[a c] aliases IH]; intros pos n r; [now exists n|].
  rewrite add_aliases_cons.
  intros H. apply IH in H. destruct H as [n' H]. cbn [add_alias] in H.
  destruct (dict_get pos c) as [rc|] eqn:Hc; [|now exists n'].
  rewrite dict_get_set in H. destruct (String.eqb a n').
  - injection H as <-. now exists c.
  - now exists n'.
Qed.

End PackerFacts.

Lemma pack_sprites_nonempty icons aliases :
  icons <> [] ->
  Packer.pack_sprites icons aliases =
  let c := Packer.place_all Packer.start (Packer.sorted_icons icons) in
  (mkSheet (Packer.max_width c)
           (Packer.current_y c + Packer.row_height c)
           (Packer.paste_all icons (Packer.positions c)),
   Packer.add_aliases (Packer.positions c) aliases).
Proof. destruct icons; [contradiction | reflexivity]. Qed.

(** C2: for a non-empty [icons], every rect of the table
    [pack_sprites] returns lies inside the sheet it returns, whose
    width and height therefore cover the bounding box of the rects;
    the rects of two different names that are not aliases do not
    intersect; and each such name of [icons] has a rect. *)
Theorem pack_sprites_disjoint_within_sheet icons aliases :
  icons <> [] ->
  let sheet := fst (Packer.pack_sprites icons aliases) in
  let positions := snd (Packer.pack_sprites icons aliases) in
  (forall n x y w h, dict_get positions n = Some (x, y, w, h) ->
     0 <= x /\ 0 <= y /\
     x + w <= sheet_width sheet /\ y + h <= sheet_height sheet) /\
  (forall n1 n2 r1 r2, n1 <> n2 ->
     dict_get aliases n1 = None -> dict_get aliases n2 = None ->
     dict_get positions n1 = Some r1 -> dict_get positions n2 = Some r2 ->
     ~ Packer.intersect r1 r2) /\
  (forall n, In n (dict_keys icons) -> dict_get aliases n = None ->
     dict_get positions n <> None).
Proof.
  intros Hne. rewrite (pack_sprites_nonempty icons aliases Hne).
  cbv beta iota zeta. cbn [fst snd sheet_width sheet_height].
  set (c := Packer.place_all Packer.start (Packer.sorted_icons icons)).
  assert (Hc : packing c)
    by apply PackerFacts.packing_place_all, PackerFacts.packing_start.
  destruct Hc as [Hcur Hrects Hapart].
  split; [|split].
  - intros n x y w h Hn.
    apply PackerFacts.add_aliases_from in Hn. destruct Hn as [n' Hn].
    specialize (Hrects n' _ Hn). unfold placed in Hrects. lia.
  - intros n1 n2 r1 r2 Hn A1 A2.
    rewrite !PackerFacts.add_aliases_other by now apply dict_get_None.
    intros H1 H2. apply PackerFacts.separated_not_intersect.
    now apply (Hapart n1 n2).
  - intros n Hin A.
    rewrite PackerFacts.add_aliases_other by now apply dict_get_None.
    apply PackerFacts.place_all_covers.
    eapply Permutation_in; [|exact Hin].
    apply Permutation_map, Permutation_sym, PackerFacts.sorted_icons_perm.
Qed.

Lemma pack_sprites_disjoint_within_sheet_witness :
  let icons := [("club", image 300 20); ("bat", image 300 40);
                ("knife", image 100 20)] in
  icons <> [] /\
  snd (Packer.pack_sprites icons WEAPON_ALIASES) =
    [("bat", (0, 0, 300, 40)); ("club", (0, 40, 300, 20));
     ("knife", (300, 40, 100, 20))] /\
  ~ Packer.intersect (0, 40, 300, 20) (300, 40, 100, 20) /\
  300 + 100 <= sheet_width (fst (Packer.pack_sprites icons WEAPON_ALIASES)).
Proof.
  intros icons.
  assert (Hne : icons <> []) by discriminate.
  destruct (pack_sprites_disjoint_within_sheet icons WEAPON_ALIASES Hne)
    as (Hin & Hapart & _).
  refine (conj Hne (conj eq_refl (conj _ _))).
  - apply (Hapart "club" "knife"); [discriminate | reflexivity..].
  - apply (Hin "knife" 300 40 100 20). reflexivity.
Defined.

Lemma breaks_row_spec c img :
  Packer.breaks_row c img = true <->
  Packer.current_x c + img_width img > Packer.target_width /\
  Packer.current_x c > 0.
Proof.
  unfold Packer.breaks_row.
  rewrite andb_true_iff, !Z.gtb_ltb, !Z.ltb_lt. lia.
Qed.

Lemma placements_split icons before n ic after :
  Packer.sorted_icons icons = (before ++ (n, ic) :: after)%list ->
  ~ In n (map fst after) ->
  let c := Packer.next_row (Packer.place_all Packer.start before)
                           (fst (fst ic)) in
  dict_get (Packer.placements icons) n =
  Some (Packer.current_x c, Packer.current_y c,
        img_width (fst (fst ic)), img_height (fst (fst ic))).
Proof.
  intros Hs Hn. unfold Packer.placements. rewrite Hs.
  rewrite PackerFacts.place_all_app, PackerFacts.place_all_cons.
  rewrite PackerFacts.place_all_other by assumption.
  apply PackerFacts.place_position.
Qed.

Lemma row_length_positive items : forall c n,
  (forall item, In item items -> 0 < img_width (fst (fst (snd item)))) ->
  0 <= Packer.current_x c ->
  (0 < Packer.current_x c <-> (0 < n)%nat) ->
  0 < Packer.current_x (Packer.place_all c items) <->
  (0 < Packer.row_length c n items)%nat.
Proof.
  induction items as [|item items IH]; intros c n Hw Hc Hn; [exact Hn|].
  rewrite PackerFacts.place_all_cons. cbn [Packer.row_length].
  pose proof (Hw item (or_introl eq_refl)) as Hitem.
  assert (Hx : 0 < Packer.current_x (Packer.place c item)).
  { destruct item as [m [[img ow] oh]]. simpl in *.
    unfold Packer.next_row. destruct (Packer.breaks_row c img); simpl; lia. }
  apply IH.
  - intros i Hi. apply Hw. now right.
  - lia.
  - destruct (Packer.breaks_row c _); split; intros; lia.
Qed.

Lemma sorted_icons_later icons before n ic after :
  NoDup (dict_keys icons) ->
  Packer.sorted_icons icons = (before ++ (n, ic) :: after)%list ->
  ~ In n (map fst after).
Proof.
  intros Hnd Hs.
  assert (Hp : NoDup (map fst (Packer.sorted_icons icons))).
  { eapply Permutation_NoDup; [|exact Hnd].
    apply Permutation_map, Permutation_sym, PackerFacts.sorted_icons_perm. }
  rewrite Hs, map_app in Hp. simpl in Hp.
  apply NoDup_remove_2 in Hp. rewrite in_app_iff in Hp. tauto.
Qed.

(** The image after [n1] in the sorted order goes right next to [n1],
    or to the start of a row below it. *)
Lemma placements_next icons before n1 ic1 n2 ic2 after x1 y1 w1 h1 :
  NoDup (dict_keys icons) ->
  Packer.sorted_icons icons
    = (before ++ (n1, ic1) :: (n2, ic2) :: after)%list ->
  dict_get (Packer.placements icons) n1 = Some (x1, y1, w1, h1) ->
  let w2 := img_width (fst (fst ic2)) in
  let new_row := x1 + w1 + w2 > 512 /\ x1 + w1 > 0 in
  exists x2 y2,
    dict_get (Packer.placements icons) n2
      = Some (x2, y2, w2, img_height (fst (fst ic2))) /\
    ((~ new_row /\ x2 = x1 + w1 /\ y2 = y1) \/
     (new_row /\ x2 = 0 /\ y1 + h1 <= y2)).
Proof.
  intros Hnd Hs H1 w2 new_row.
  pose proof (sorted_icons_later icons before n1 ic1 _ Hnd Hs) as Hn1.
  pose proof (placements_split icons before n1 ic1 _ Hs Hn1) as P1.
  cbv zeta in P1. rewrite H1 in P1. injection P1 as Ex Ey Ew Eh.
  assert (Hs' : Packer.sorted_icons icons
                = ((before ++ [(n1, ic1)]) ++ (n2, ic2) :: after)%list)
    by (rewrite Hs, <- app_assoc; reflexivity).
  pose proof (sorted_icons_later icons _ n2 ic2 _ Hnd Hs') as Hn2.
  pose proof (placements_split icons _ n2 ic2 _ Hs' Hn2) as P2.
  cbv zeta in P2. rewrite PackerFacts.place_all_app in P2.
  change (Packer.place_all (Packer.place_all Packer.start before) [(n1, ic1)])
    with (Packer.place (Packer.place_all Packer.start before) (n1, ic1)) in P2.
  set (c := Packer.place_all Packer.start before) in *.
  set (c2 := Packer.place c (n1, ic1)) in *.
  assert (E2 : Packer.current_x c2 = x1 + w1 /\ Packer.current_y c2 = y1 /\
               h1 <= Packer.row_height c2).
  { subst c2. destruct ic1 as [[img1 ow1] oh1]. simpl in *. subst. lia. }
  destruct E2 as (Ecx & Ecy & Erh).
  pose proof (breaks_row_spec c2 (fst (fst ic2))) as Hb.
  rewrite Ecx in Hb. unfold Packer.target_width in Hb. fold w2 in Hb.
  fold new_row in Hb.
  exists (Packer.current_x (Packer.next_row c2 (fst (fst ic2)))),
         (Packer.current_y (Packer.next_row c2 (fst (fst ic2)))).
  split; [exact P2|].
  unfold Packer.next_row.
  destruct (Packer.breaks_row c2 (fst (fst ic2))); simpl.
  - right. split; [now apply Hb | lia].
  - left. split; [|lia]. intros Hn. apply Hb in Hn. discriminate Hn.
Qed.

(** C7, as stated, fails: an image of width 0 is in the row and leaves
    [current_x] at 0; the image of width 600 after it does not fit in
    512 and yet stays in that row, at (0,0) and not at (0,50). *)
Lemma zero_width_row_is_not_left :
  let icons := [("z", image 0 50); ("wide", image 600 30)] in
  Packer.sorted_icons icons = icons /\
  (0 < Packer.row_length Packer.start 0 [("z", image 0 50)])%nat /\
  Packer.current_x (Packer.place_all Packer.start [("z", image 0 50)]) + 600
    > 512 /\
  Packer.pack_sprites icons [] =
    (mkSheet 600 50 [(mkImage 0 50, (0, 0)); (mkImage 600 30, (0, 0))],
     [("z", (0, 0, 0, 50)); ("wide", (0, 0, 600, 30))]).
Proof.
  refine (conj eq_refl (conj _ (conj eq_refl eq_refl))).
  vm_compute. lia.
Qed.

(** C7, amended: the packer takes the images in an order of descending height
    and starts with both cursors at 0; an image goes to
    [(current_x, current_y)], after a move to a new row
    ([current_x] back to 0, [current_y] advanced by the row height)
    that is made exactly when [current_x] plus the image width exceeds
    512 and [current_x] is positive, which for images of positive
    width, and only for them, says that the row holds at least one
    image; so each image
    goes right next to the one before it, or to the start of a row
    below it.  Two images of heights 40 and 20 and width 300 go to
    (0,0) and (0,40) on a sheet of 300 by 60. *)
Theorem pack_sprites_rows :
  (forall icons,
     Permutation (Packer.sorted_icons icons) icons /\
     StronglySorted descending (Packer.sorted_icons icons)) /\
  (Packer.current_x Packer.start = 0 /\ Packer.current_y Packer.start = 0) /\
  (forall icons before n img ow oh after,
     NoDup (dict_keys icons) ->
     Packer.sorted_icons icons = (before ++ (n, (img, ow, oh)) :: after)%list ->
     let c := Packer.place_all Packer.start before in
     let new_row :=
       Packer.current_x c + img_width img > 512 /\ Packer.current_x c > 0 in
     (new_row ->
      dict_get (Packer.placements icons) n =
        Some (0, Packer.current_y c + Packer.row_height c,
              img_width img, img_height img)) /\
     (~ new_row ->
      dict_get (Packer.placements icons) n =
        Some (Packer.current_x c, Packer.current_y c,
              img_width img, img_height img))) /\
  (forall icons before n1 ic1 n2 ic2 after x1 y1 w1 h1,
     NoDup (dict_keys icons) ->
     Packer.sorted_icons icons
       = (before ++ (n1, ic1) :: (n2, ic2) :: after)%list ->
     dict_get (Packer.placements icons) n1 = Some (x1, y1, w1, h1) ->
     let w2 := img_width (fst (fst ic2)) in
     let new_row := x1 + w1 + w2 > 512 /\ x1 + w1 > 0 in
     exists x2 y2,
       dict_get (Packer.placements icons) n2
         = Some (x2, y2, w2, img_height (fst (fst ic2))) /\
       ((~ new_row /\ x2 = x1 + w1 /\ y2 = y1) \/
        (new_row /\ x2 = 0 /\ y1 + h1 <= y2))) /\
  (forall items,
     (forall item, In item items -> 0 < img_width (fst (fst (snd item)))) ->
     0 < Packer.current_x (Packer.place_all Packer.start items) <->
     (0 < Packer.row_length Packer.start 0 items)%nat) /\
  (forall aliases,
     Packer.pack_sprites [("a", image 300 40); ("b", image 300 20)] aliases =
       (mkSheet 300 60 [(mkImage 300 40, (0, 0)); (mkImage 300 20, (0, 40))],
        Packer.add_aliases [("a", (0, 0, 300, 40)); ("b", (0, 40, 300, 20))]
                           aliases)).
Proof.
  split; [|split; [|split; [|split; [|split]]]].
  - intros icons. split.
    + apply PackerFacts.sorted_icons_perm.
    + apply PackerFacts.sorted_icons_descending.
  - split; reflexivity.
  - intros icons before n img ow oh after Hnd Hs c new_row.
    pose proof (sorted_icons_later icons before n _ after Hnd Hs) as Hn.
    pose proof (placements_split icons before n (img, ow, oh) after Hs Hn)
      as Hpos.
    cbn [fst] in Hpos. fold c in Hpos. rewrite Hpos.
    subst new_row. rewrite <- (breaks_row_spec c img).
    unfold Packer.next_row.
    split; intros Hb.
    + now rewrite Hb.
    + apply not_true_is_false in Hb. now rewrite Hb.
  - apply placements_next.
  - intros items Hw. apply row_length_positive; simpl; [assumption|lia|lia].
  - intros aliases. reflexivity.
Qed.

Lemma pack_sprites_rows_witness :
  let icons := [("b", image 300 20); ("a", image 300 40)] in
  NoDup (dict_keys icons) /\
  Packer.sorted_icons icons = [("a", image 300 40); ("b", image 300 20)] /\
  dict_get (Packer.placements icons) "b" = Some (0, 40, 300, 20) /\
  dict_get (Packer.placements icons) "a" = Some (0, 0, 300, 40) /\
  (0 < Packer.row_length Packer.start 0 [("a", image 300 40)])%nat.
Proof.
  intros icons.
  destruct pack_sprites_rows as (_ & _ & Hrule & _ & Hrow & _).
  assert (Hnd : NoDup (dict_keys icons))
    by (apply distinct_NoDup; reflexivity).
  refine (conj Hnd (conj eq_refl (conj _ (conj _ _)))).
  - apply (Hrule icons [("a", image 300 40)] "b" (mkImage 300 20) 300 20 []
                 Hnd eq_refl).
    vm_compute. split; reflexivity.
  - apply (Hrule icons [] "a" (mkImage 300 40) 300 40 [("b", image 300 20)]
                 Hnd eq_refl).
    vm_compute. intros [_ H]. discriminate H.
  - apply (Hrow [("a", image 300 40)]).
    + intros item [<-|[]]. reflexivity.
    + reflexivity.
Defined.

(** *** Aliases *)

Section AliasLoop.
Variable aliases : dict string.
Hypothesis aliases_keys : NoDup (dict_keys aliases).
Hypothesis aliases_flat : flat aliases.

(** Over a flat alias table, the loop gives an alias the rect its
    canonical name had before the loop, and leaves the alias alone
    when the canonical name had none. *)
Lemma add_aliases_flat pos alias canonical :
  In (alias, canonical) aliases ->
  dict_get (Packer.add_aliases pos aliases) canonical = dict_get pos canonical /\
  dict_get (Packer.add_aliases pos aliases) alias =
    match dict_get pos canonical with
    | Some r => Some r
    | None => dict_get pos alias
    end.
Proof.
  intros Hin.
  assert (Hc : ~ In canonical (dict_keys aliases))
    by (apply dict_get_None; eapply aliases_flat; eassumption).
  split; [now apply PackerFacts.add_aliases_other|].
  destruct (in_split _ _ Hin) as (l1 & l2 & Hl).
  pose proof aliases_keys as Hnd. unfold dict_keys in Hnd, Hc.
  rewrite Hl, map_app in Hnd, Hc. simpl in Hnd, Hc.
  apply NoDup_remove_2 in Hnd. rewrite in_app_iff in Hnd, Hc.
  rewrite Hl. unfold Packer.add_aliases. rewrite fold_left_app. simpl.
  fold (Packer.add_aliases pos l1).
  match goal with
  | |- dict_get (fold_left _ _ ?p) _ = _ =>
      change (dict_get (Packer.add_aliases p l2) alias = 
              match dict_get pos canonical with
              | Some r => Some r
              | None => dict_get pos alias
              end)
  end.
  rewrite PackerFacts.add_aliases_other by (unfold dict_keys; tauto).
  rewrite (PackerFacts.add_aliases_other l1 pos canonical)
    by (unfold dict_keys; tauto).
  destruct (dict_get pos canonical) as [r|].
  - apply dict_get_set_same.
  - apply PackerFacts.add_aliases_other. unfold dict_keys. tauto.
Qed.

End AliasLoop.

Lemma WEAPON_ALIASES_is_flat : flat WEAPON_ALIASES.
Proof. intros a c. apply WEAPON_ALIASES_flat. Qed.

(** *** The paste loop *)

Lemma paste_all_length icons pos :
  (forall n, In n (dict_keys pos) -> dict_get icons n <> None) ->
  List.length (Packer.paste_all icons pos) = List.length pos.
Proof.
  induction pos as [|[n [[[x y] w] h]] pos IH]; intros H; simpl; [reflexivity|].
  destruct (dict_get icons n) as [[[img ow] oh]|] eqn:E.
  - simpl. f_equal. apply IH. intros m Hm. apply H. now right.
  - exfalso. apply (H n); [now left | assumption].
Qed.

Lemma place_all_keys items : forall c,
  NoDup (map fst items) ->
  (forall n, In n (map fst items) -> dict_get (Packer.positions c) n = None) ->
  dict_keys (Packer.positions (Packer.place_all c items)) =
  (dict_keys (Packer.positions c) ++ map fst items)%list.
Proof.
  induction items as [|item items IH]; intros c Hnd Hfresh.
  - simpl. now rewrite app_nil_r.
  - rewrite PackerFacts.place_all_cons. inversion_clear Hnd as [|? ? Hi Hnd'].
    rewrite IH.
    + destruct item as [m [[img ow] oh]]. simpl.
      assert (Hp : Packer.positions (Packer.next_row c img)
                   = Packer.positions c)
        by (unfold Packer.next_row; now destruct (Packer.breaks_row c img)).
      rewrite Hp, dict_set_fresh by (apply Hfresh; now left).
      unfold dict_keys. rewrite map_app, <- app_assoc. reflexivity.
    + assumption.
    + intros n Hn. rewrite PackerFacts.place_other.
      * apply Hfresh. now right.
      * intros E. subst n. contradiction.
Qed.

Lemma placements_keys icons :
  NoDup (dict_keys icons) ->
  dict_keys (Packer.placements icons) = map fst (Packer.sorted_icons icons).
Proof.
  intros Hnd. unfold Packer.placements. rewrite place_all_keys.
  - reflexivity.
  - eapply Permutation_NoDup; [|exact Hnd].
    apply Permutation_map, Permutation_sym, PackerFacts.sorted_icons_perm.
  - reflexivity.
Qed.

(** C8, as stated, fails: [holymackerel] is an alias of
    [holy_mackerel]; when only [holymackerel] is packed, the canonical
    name has no placement, and the table still has an entry for the
    alias, that of its own icon. *)
Lemma alias_keeps_its_own_rect :
  let icons := [("holymackerel", image 64 32)] in
  dict_get WEAPON_ALIASES "holymackerel" = Some "holy_mackerel" /\
  dict_get (Packer.placements icons) "holy_mackerel" = None /\
  dict_get (snd (Packer.pack_sprites icons WEAPON_ALIASES)) "holymackerel"
    = Some (0, 0, 64, 32).
Proof. repeat split. Qed.

(** C8, amended: for every alias of the alias table whose canonical
    name received a placement, the returned table holds for the alias
    the rect of the canonical name; for an alias whose canonical name
    received none, the loop adds nothing: the table holds for the alias
    what the first pass recorded for it, an entry only when the alias
    is itself the name of a packed icon.  The images pasted are those
    of the first pass, one for each icon, whatever the aliases. *)
Theorem pack_sprites_aliases icons alias canonical :
  dict_get WEAPON_ALIASES alias = Some canonical ->
  let sheet := fst (Packer.pack_sprites icons WEAPON_ALIASES) in
  let positions := snd (Packer.pack_sprites icons WEAPON_ALIASES) in
  (forall r, dict_get (Packer.placements icons) canonical = Some r ->
     dict_get positions alias = Some r /\
     dict_get positions canonical = Some r) /\
  (dict_get (Packer.placements icons) canonical = None ->
     dict_get positions alias = dict_get (Packer.placements icons) alias /\
     (~ In alias (dict_keys icons) -> dict_get positions alias = None)) /\
  pasted sheet = Packer.paste_all icons (Packer.placements icons) /\
  (NoDup (dict_keys icons) ->
     List.length (pasted sheet) = List.length icons).
Proof.
  intros Ha sheet positions. apply dict_get_In in Ha.
  assert (Hpos : positions =
            Packer.add_aliases (Packer.placements icons) WEAPON_ALIASES).
  { subst positions. destruct icons; reflexivity. }
  assert (Hsheet : pasted sheet
                   = Packer.paste_all icons (Packer.placements icons)).
  { subst sheet. destruct icons; reflexivity. }
  destruct (add_aliases_flat WEAPON_ALIASES WEAPON_ALIASES_keys
              WEAPON_ALIASES_is_flat (Packer.placements icons)
              alias canonical Ha) as [Hc Hal].
  rewrite Hpos, Hc, Hal.
  split; [|split; [|split]].
  - intros r ->. split; reflexivity.
  - intros ->. split; [reflexivity|].
    intros Hn. unfold Packer.placements.
    rewrite PackerFacts.place_all_other; [reflexivity|].
    intros Hin. apply Hn.
    eapply Permutation_in; [|exact Hin].
    apply Permutation_map, PackerFacts.sorted_icons_perm.
  - exact Hsheet.
  - intros Hnd. rewrite Hsheet, paste_all_length.
    + rewrite <- (length_map fst), <- (length_map fst icons).
      change (map fst (Packer.placements icons))
        with (dict_keys (Packer.placements icons)).
      rewrite placements_keys by assumption.
      apply Permutation_length, Permutation_map,
        PackerFacts.sorted_icons_perm.
    + intros n Hn. rewrite placements_keys in Hn by assumption.
      intros H. apply dict_get_None in H.
      apply H. eapply Permutation_in; [|exact Hn].
      apply Permutation_map, PackerFacts.sorted_icons_perm.
Qed.

Lemma pack_sprites_aliases_witness :
  let icons := [("holymackerel", image 64 32); ("sniperrifle", image 32 32)] in
  let positions := snd (Packer.pack_sprites icons WEAPON_ALIASES) in
  dict_get WEAPON_ALIASES "awper_hand" = Some "sniperrifle" /\
  dict_get (Packer.placements icons) "sniperrifle" = Some (64, 0, 32, 32) /\
  dict_get positions "awper_hand" = Some (64, 0, 32, 32) /\
  dict_get positions "compound_bow" = None /\
  List.length (pasted (fst (Packer.pack_sprites icons WEAPON_ALIASES))) = 2%nat.
Proof.
  intros icons positions.
  destruct (pack_sprites_aliases icons "awper_hand" "sniperrifle" eq_refl)
    as (Hplaced & _ & _ & Hcount).
  destruct (pack_sprites_aliases icons "compound_bow" "huntsman" eq_refl)
    as (_ & Hnone & _).
  refine (conj eq_refl (conj eq_refl (conj _ (conj _ _)))).
  - apply (Hplaced (64, 0, 32, 32)). reflexivity.
  - apply Hnone; [reflexivity|].
    simpl. intros [H|[H|[]]]; discriminate H.
  - apply Hcount. apply distinct_NoDup. reflexivity.
Defined.

(** ** Stylesheet emitter *)

Module CssFacts.
Import Css.

(** *** The order on names *)

Lemma ascii_compare_trans a b c :
  Ascii.compare a b = Lt -> Ascii.compare b c = Lt -> Ascii.compare a c = Lt.
Proof.
  unfold Ascii.compare. rewrite !N.compare_lt_iff. lia.
Qed.

Lemma compare_trans a : forall b c,
  String.compare a b = Lt -> String.compare b c = Lt ->
  String.compare a c = Lt.
Proof.
  induction a as [|x a IH]; intros [|y b] [|z c]; simpl;
    try discriminate; try reflexivity.
  destruct (Ascii.compare x y) eqn:Exy; try discriminate;
    destruct (Ascii.compare y z) eqn:Eyz; try discriminate; intros Hab Hbc.
  - apply Ascii.compare_eq_iff in Exy, Eyz. subst.
    replace (Ascii.compare z z) with Eq
      by (symmetry; now apply N.compare_eq_iff).
    now apply (IH b c).
  - apply Ascii.compare_eq_iff in Exy. subst. now rewrite Eyz.
  - apply Ascii.compare_eq_iff in Eyz. subst. now rewrite Exy.
  - now rewrite (ascii_compare_trans x y z).
Qed.

Lemma leb_ltb a b : String.leb a b = true -> a = b \/ before a b.
Proof.
  unfold String.leb, before, String.ltb.
  destruct (String.compare a b) eqn:E; try discriminate; intros _.
  - left. now apply String.compare_eq_iff.
  - now right.
Qed.

Lemma ltb_leb a b : before a b -> String.leb a b = true.
Proof.
  unfold String.leb, before, String.ltb.
  now destruct (String.compare a b).
Qed.

Lemma before_trans a b c : before a b -> before b c -> before a c.
Proof.
  unfold before, String.ltb.
  destruct (String.compare a b) eqn:Eab; try discriminate.
  destruct (String.compare b c) eqn:Ebc; try discriminate.
  now rewrite (compare_trans a b c).
Qed.

Lemma leb_trans a b c :
  String.leb a b = true -> String.leb b c = true -> String.leb a c = true.
Proof.
  intros Hab Hbc.
  destruct (leb_ltb _ _ Hab) as [->|Hab']; [assumption|].
  destruct (leb_ltb _ _ Hbc) as [<-|Hbc']; [assumption|].
  apply ltb_leb. now apply (before_trans a b c).
Qed.

(** *** The sort *)

Lemma insert_name_perm k l : Permutation (insert k l) (k :: l).
Proof.
  induction l as [|e l IH]; simpl; [reflexivity|].
  destruct (String.leb k e); [reflexivity|].
  rewrite IH. apply perm_swap.
Qed.

Lemma sorted_perm s : Permutation (sorted s) s.
Proof.
  induction s as [|k s IH]; simpl; [reflexivity|].
  rewrite insert_name_perm. now constructor.
Qed.

Lemma insert_sorted k l :
  StronglySorted (fun a b => String.leb a b = true) l ->
  StronglySorted (fun a b => String.leb a b = true) (insert k l).
Proof.
  induction 1 as [|e l Hl IH He]; simpl.
  - repeat constructor.
  - destruct (String.leb k e) eqn:E.
    + constructor; [now constructor|].
      constructor; [assumption|].
      eapply Forall_impl; [|exact He].
      intros x Hx. now apply (leb_trans k e x).
    + constructor; [assumption|].
      rewrite insert_name_perm. constructor; [|assumption].
      destruct (String.leb_total k e) as [H|H]; congruence.
Qed.

Lemma sorted_sorted s :
  StronglySorted (fun a b => String.leb a b = true) (sorted s).
Proof.
  induction s as [|k s IH]; simpl; [constructor|].
  now apply insert_sorted.
Qed.

Lemma sorted_strict l :
  NoDup l ->
  StronglySorted (fun a b => String.leb a b = true) l ->
  StronglySorted before l.
Proof.
  induction 2 as [|e l Hl IH He]; [constructor|].
  inversion_clear H as [|? ? Hin Hnd].
  constructor; [now apply IH|].
  rewrite Forall_forall in *. intros x Hx.
  destruct (leb_ltb _ _ (He x Hx)) as [->|Hlt]; [contradiction | assumption].
Qed.

(** *** The set of names *)

Lemma set_add_In s k n : In n (set_add s k) <-> In n s \/ n = k.
Proof.
  unfold set_add. destruct (existsb (String.eqb k) s) eqn:E.
  - apply existsb_exists in E. destruct E as (x & Hx & Ek).
    apply String.eqb_eq in Ek. subst x.
    split; [tauto | intros [H| ->]; assumption].
  - rewrite in_app_iff. simpl. intuition congruence.
Qed.

Lemma set_add_NoDup s k : NoDup s -> NoDup (set_add s k).
Proof.
  intros Hs. unfold set_add. destruct (existsb (String.eqb k) s) eqn:E;
    [assumption|].
  apply NoDup_app; [assumption | repeat constructor; intros [] |].
  intros e He [<-|[]].
  apply not_true_iff_false in E. apply E. apply existsb_exists.
  exists k. split; [assumption | apply String.eqb_refl].
Qed.

Lemma set_of_from keys : forall s n,
  In n (fold_left set_add keys s) <-> In n s \/ In n keys.
Proof.
  induction keys as [|k keys IH]; intros s n; simpl; [tauto|].
  rewrite IH, set_add_In. intuition congruence.
Qed.

Lemma set_of_from_NoDup keys : forall s,
  NoDup s -> NoDup (fold_left set_add keys s).
Proof.
  induction keys as [|k keys IH]; intros s Hs; simpl; [assumption|].
  apply IH. now apply set_add_NoDup.
Qed.

(** *** The reverse mappings *)

Section Collect.
Variable positions : dict rect.

Lemma collect_names l : forall acc n,
  In n (snd (fold_left (add_reverse positions) l acc)) <->
  In n (snd acc) \/
  exists t, In (n, t) l /\ dict_mem positions t = true.
Proof.
  induction l as [|[o m] l IH]; intros acc n; simpl.
  - split; [tauto | intros [H|(t & [] & _)]; assumption].
  - rewrite IH. destruct (dict_mem positions m) eqn:E; simpl.
    + rewrite set_add_In. split.
      * intros [[H| ->]|(t & Ht & Hm)]; eauto.
      * intros [H|(t & [[= <- <-]|Ht] & Hm)]; eauto.
    + split.
      * intros [H|(t & Ht & Hm)]; eauto.
      * intros [H|(t & [[= <- <-]|Ht] & Hm)]; eauto; congruence.
Qed.

Lemma collect_NoDup l : forall acc,
  NoDup (snd acc) -> NoDup (snd (fold_left (add_reverse positions) l acc)).
Proof.
  induction l as [|[o m] l IH]; intros acc Hacc; simpl; [assumption|].
  apply IH. destruct (dict_mem positions m); simpl;
    [now apply set_add_NoDup | assumption].
Qed.

Lemma collect_reverse l : forall acc n,
  NoDup (dict_keys l) ->
  dict_get (fst (fold_left (add_reverse positions) l acc)) n =
  match dict_get l n with
  | Some t => if dict_mem positions t then Some t else dict_get (fst acc) n
  | None => dict_get (fst acc) n
  end.
Proof.
  induction l as [|[o m] l IH]; intros acc n Hnd; [reflexivity|].
  cbn [fold_left dict_get].
  inversion_clear Hnd as [|? ? Ho Hl]. rewrite IH by assumption.
  destruct (String.eqb_spec o n) as [->|Hne].
  - apply dict_get_None in Ho. rewrite Ho. cbn [add_reverse].
    destruct (dict_mem positions m); simpl; [|reflexivity].
    apply dict_get_set_same.
  - assert (E : dict_get (fst (add_reverse positions acc (o, m))) n
                = dict_get (fst acc) n).
    { simpl. destruct (dict_mem positions m); simpl; [|reflexivity].
      now apply dict_get_set_other. }
    now rewrite E.
Qed.

End Collect.

(** *** The rules *)

Lemma rules_In positions reverse names n r :
  In (n, r) (rules positions reverse names) <->
  In n names /\ rect_for positions reverse n = Some r.
Proof.
  induction names as [|k names IH]; simpl; [tauto|].
  destruct (rect_for positions reverse k) as [rk|] eqn:E; simpl; rewrite IH.
  - split.
    + intros [[= <- <-]|[H1 H2]]; tauto.
    + intros [[->|H1] H2]; [left; congruence | tauto].
  - split; [tauto|]. intros [[->|H1] H2]; [congruence | tauto].
Qed.

Lemma rules_names positions reverse names :
  (forall n, In n names -> rect_for positions reverse n <> None) ->
  map fst (rules positions reverse names) = names.
Proof.
  induction names as [|k names IH]; intros H; simpl; [reflexivity|].
  destruct (rect_for positions reverse k) eqn:E.
  - simpl. f_equal. apply IH. intros n Hn. apply H. now right.
  - exfalso. apply (H k); [now left | assumption].
Qed.

Lemma dict_mem_In {V} (d : dict V) k :
  dict_mem d k = true <-> In k (dict_keys d).
Proof.
  unfold dict_mem. pose proof (dict_get_None d k) as H.
  destruct (dict_get d k); split; intros H'; try reflexivity;
    try discriminate.
  - destruct (in_dec string_dec k (dict_keys d)) as [Hin|Hn]; [assumption|].
    apply H in Hn. discriminate.
  - exfalso. now apply (proj1 H).
Qed.

End CssFacts.

Section Emitted.
Variable mappings : dict string.
Hypothesis mappings_keys : NoDup (dict_keys mappings).
Variable positions : dict rect.

Lemma all_weapons_In n :
  In n (snd (Css.collect mappings positions)) <->
  In n (dict_keys positions) \/
  exists t, dict_get mappings n = Some t /\ In t (dict_keys positions).
Proof.
  unfold Css.collect. rewrite CssFacts.collect_names. simpl.
  unfold Css.set_of. rewrite CssFacts.set_of_from. simpl.
  split; intros [H|(t & Ht & Hm)]; try tauto; right; exists t.
  - split; [now apply In_dict_get | now apply CssFacts.dict_mem_In].
  - split; [now apply dict_get_In | now apply CssFacts.dict_mem_In].
Qed.

Lemma all_weapons_NoDup : NoDup (snd (Css.collect mappings positions)).
Proof.
  unfold Css.collect. apply CssFacts.collect_NoDup. simpl.
  apply CssFacts.set_of_from_NoDup. constructor.
Qed.

(** The rect of a name: that of its mapped name when the table has
    one, its own otherwise. *)
Lemma rect_for_collect n :
  Css.rect_for positions (fst (Css.collect mappings positions)) n =
  match dict_get mappings n with
  | Some t =>
      match dict_get positions t with
      | Some r => Some r
      | None => dict_get positions n
      end
  | None => dict_get positions n
  end.
Proof.
  unfold Css.rect_for, Css.collect.
  rewrite CssFacts.collect_reverse by assumption. simpl.
  destruct (dict_get mappings n) as [t|]; [|reflexivity].
  unfold dict_mem. destruct (dict_get positions t) eqn:E; [exact E|reflexivity].
Qed.

Lemma rect_for_all_weapons n :
  In n (snd (Css.collect mappings positions)) ->
  Css.rect_for positions (fst (Css.collect mappings positions)) n <> None.
Proof.
  rewrite all_weapons_In, rect_for_collect.
  intros [H|(t & -> & H)].
  - assert (Hn : dict_get positions n <> None)
      by (intros E; apply dict_get_None in E; contradiction).
    destruct (dict_get mappings n) as [t|];
      [destruct (dict_get positions t); [discriminate|]|]; assumption.
  - intros E. destruct (dict_get positions t) eqn:Et; [discriminate|].
    apply dict_get_None in Et. contradiction.
Qed.

Lemma rules_with_names :
  map fst (Css.rules_with mappings positions) =
  Css.sorted (snd (Css.collect mappings positions)).
Proof.
  unfold Css.rules_with.
  rewrite (surjective_pairing (Css.collect mappings positions)).
  apply CssFacts.rules_names. intros n Hn. apply rect_for_all_weapons.
  eapply Permutation_in; [apply CssFacts.sorted_perm | exact Hn].
Qed.

Lemma rules_with_In n r :
  In (n, r) (Css.rules_with mappings positions) <->
  In n (snd (Css.collect mappings positions)) /\
  Css.rect_for positions (fst (Css.collect mappings positions)) n = Some r.
Proof.
  unfold Css.rules_with.
  rewrite (surjective_pairing (Css.collect mappings positions)).
  rewrite CssFacts.rules_In.
  split; intros [H1 H2]; (split; [|assumption]).
  - eapply Permutation_in; [apply CssFacts.sorted_perm | exact H1].
  - eapply Permutation_in;
      [apply Permutation_sym, CssFacts.sorted_perm | exact H1].
Qed.

Lemma rules_with_spec :
  let out := Css.rules_with mappings positions in
  (forall n, In n (map fst out) <->
     In n (dict_keys positions) \/
     exists t, dict_get mappings n = Some t /\ In t (dict_keys positions)) /\
  NoDup (map fst out) /\
  StronglySorted before (map fst out) /\
  (forall n t r, ~ In n (dict_keys positions) ->
     dict_get mappings n = Some t ->
     dict_get positions t = Some r -> In (n, r) out) /\
  (forall n r, dict_get positions n = Some r ->
     (forall t, dict_get mappings n = Some t -> dict_get positions t = None) ->
     In (n, r) out).
Proof.
  intros out. subst out. rewrite rules_with_names.
  assert (Hnd : NoDup (Css.sorted (snd (Css.collect mappings positions)))).
  { eapply Permutation_NoDup; [|exact all_weapons_NoDup].
    apply Permutation_sym, CssFacts.sorted_perm. }
  refine (conj _ (conj Hnd (conj _ (conj _ _)))).
  - intros n. rewrite <- all_weapons_In.
    split; apply Permutation_in;
      [|apply Permutation_sym]; apply CssFacts.sorted_perm.
  - apply CssFacts.sorted_strict; [exact Hnd | apply CssFacts.sorted_sorted].
  - intros n t r Hn Ht Hr. apply rules_with_In. split.
    + apply all_weapons_In. right. exists t. split; [assumption|].
      apply CssFacts.dict_mem_In. unfold dict_mem. now rewrite Hr.
    + rewrite rect_for_collect. now rewrite Ht, Hr.
  - intros n r Hr Hm. apply rules_with_In. split.
    + apply all_weapons_In. left.
      apply CssFacts.dict_mem_In. unfold dict_mem. now rewrite Hr.
    + rewrite rect_for_collect.
      destruct (dict_get mappings n) as [t|]; [|assumption].
      now rewrite (Hm t eq_refl).
Qed.

Lemma rules_with_mapping_first n t r :
  dict_get mappings n = Some t ->
  dict_get positions t = Some r ->
  In n (dict_keys positions) ->
  In (n, r) (Css.rules_with mappings positions) /\
  (forall r', In (n, r') (Css.rules_with mappings positions) -> r' = r).
Proof.
  intros Ht Hr Hn.
  assert (Hrect : Css.rect_for positions (fst (Css.collect mappings positions)) n = Some r).
  { rewrite rect_for_collect. now rewrite Ht, Hr. }
  split.
  - apply rules_with_In. split; [|exact Hrect].
    apply all_weapons_In. now left.
  - intros r' H'. apply rules_with_In in H'.
    destruct H' as [_ H']. congruence.
Qed.

(** The rules are a list with one entry for [n], that of the mapped
    name's rect. *)
Lemma rules_with_block n t r :
  dict_get mappings n = Some t ->
  dict_get positions t = Some r ->
  In n (dict_keys positions) ->
  exists l1 l2,
    Css.rules_with mappings positions = (l1 ++ (n, r) :: l2)%list /\
    forall m r', In (m, r') (l1 ++ l2)%list -> m <> n.
Proof.
  intros Ht Hr Hn.
  destruct (rules_with_mapping_first n t r Ht Hr Hn) as [Hin _].
  destruct (in_split _ _ Hin) as (l1 & l2 & E).
  exists l1, l2. split; [exact E|].
  destruct rules_with_spec as (_ & Hnd & _). cbv zeta in Hnd.
  rewrite E, map_app in Hnd. cbn [map fst] in Hnd.
  apply NoDup_remove_2 in Hnd. rewrite <- map_app in Hnd.
  intros m r' Hm ->. apply Hnd.
  change n with (fst (n, r')). now apply in_map.
Qed.

End Emitted.

(** *** The text of the rules *)

Lemma string_length_append (a b : string) :
  String.length (a ++ b) = (String.length a + String.length b)%nat.
Proof. induction a as [|c a IH]; simpl; [reflexivity | now rewrite IH]. Qed.

Lemma append_same_tail (a b tail : string) :
  (a ++ tail = b ++ tail)%string -> a = b.
Proof.
  revert b. induction a as [|c a IH]; intros [|c' b] H.
  - reflexivity.
  - apply (f_equal String.length) in H. simpl in H.
    rewrite string_length_append in H. lia.
  - apply (f_equal String.length) in H. simpl in H.
    rewrite string_length_append in H. lia.
  - simpl in H. injection H as -> H. f_equal. now apply IH.
Qed.

(** The line that opens a rule names its weapon, and no other line of
    a rule, nor of the header, opens one. *)
Lemma selector_in_rule n m r :
  In (".killicon-" ++ n ++ " {")%string (Css.rule m r) -> m = n.
Proof.
  destruct r as [[[x0 y0] w] h]. unfold Css.rule, Css.offset.
  intros [H|[H|[H|[H|[H|[H|[]]]]]]]; try discriminate H.
  simpl in H. injection H as H. symmetry. now apply append_same_tail in H.
Qed.

Lemma selector_not_in_header n :
  ~ In (".killicon-" ++ n ++ " {")%string Css.header.
Proof.
  unfold Css.header.
  intros [H|[H|[H|[H|[H|[H|[H|[H|[H|[]]]]]]]]]]; discriminate H.
Qed.

Lemma selector_once n r l1 l2 :
  (forall m r', In (m, r') (l1 ++ l2)%list -> m <> n) ->
  count_occ string_dec
    (Css.header ++ flat_map (fun nr => Css.rule (fst nr) (snd nr)) l1
       ++ Css.rule n r
       ++ flat_map (fun nr => Css.rule (fst nr) (snd nr)) l2)%list
    (".killicon-" ++ n ++ " {")%string = 1%nat.
Proof.
  intros Hother.
  assert (Hflat : forall l, (forall m r', In (m, r') l -> m <> n) ->
            count_occ string_dec
              (flat_map (fun nr => Css.rule (fst nr) (snd nr)) l)
              (".killicon-" ++ n ++ " {")%string = 0%nat).
  { intros l Hl. apply count_occ_not_In. intros Hin.
    apply in_flat_map in Hin. destruct Hin as ([m r'] & Hm & Hline).
    apply selector_in_rule in Hline. now apply (Hl m r'). }
  rewrite !count_occ_app.
  rewrite (proj1 (count_occ_not_In string_dec _ _) (selector_not_in_header n)).
  rewrite !Hflat
    by (intros m r' Hm; apply (Hother m r'); apply in_or_app; tauto).
  destruct r as [[[x0 y0] w] h]. unfold Css.rule.
  rewrite count_occ_cons_eq by reflexivity.
  rewrite (proj1 (count_occ_not_In string_dec _ _)); [reflexivity|].
  unfold Css.offset.
  intros [H|[H|[H|[H|[H|[]]]]]]; discriminate H.
Qed.

Lemma offset_reads_negated v : 0 <= v -> Str.to_Z (Css.offset v) = Some (- v).
Proof.
  intros Hv. destruct v as [|p|p]; [reflexivity| |lia].
  unfold Css.offset, Str.of_Z, Str.to_Z.
  change ("-" ++ NilZero.string_of_int (Z.to_int (Z.pos p)))%string
    with (NilZero.string_of_int (Z.to_int (Z.neg p))).
  rewrite NilZero.isi.
  - unfold option_map. now rewrite DecimalZ.of_to.
  - discriminate.
  - simpl. intros [= H]. now apply DecimalPos.Unsigned.to_uint_nonnil in H.
Qed.

(** C6, as stated, fails: for a rect with [x = -5] the rule gives the
    offset [--5px], the number behind a minus sign, which is not the
    negation 5 and no number at all. *)
Lemma negative_offset_is_not_negated :
  let positions := [("skull", (-5, 0, 32, 32))] in
  In "  background-position: --5px -0px;" (Css.generate_css positions) /\
  Css.offset (-5) = "--5" /\
  Str.to_Z (Css.offset (-5)) = None.
Proof. split; [vm_compute; tauto | split; reflexivity]. Qed.

(** C6, amended: the rules [generate_css] emits are one for each name
    that is a key of [positions] or a key of the mappings table whose
    mapped name is a key of [positions], in ascending order of name; a
    name that is only there through the mappings table has the rect of
    its mapped name, a name without a mapped name in [positions] has
    its own; each rule gives the width and the height of the rect and,
    as offsets, [x] and [y] behind a minus sign, which reads as their
    negation when [x] and [y] are not negative, as the coordinates of a
    sheet never are. *)
Theorem generate_css_rules positions :
  let out := Css.emitted positions in
  ((forall n, In n (map fst out) <->
     In n (dict_keys positions) \/
     exists t, dict_get WEAPON_MAPPINGS n = Some t /\
               In t (dict_keys positions)) /\
   NoDup (map fst out) /\
   StronglySorted before (map fst out) /\
   (forall n t r, ~ In n (dict_keys positions) ->
      dict_get WEAPON_MAPPINGS n = Some t ->
      dict_get positions t = Some r -> In (n, r) out) /\
   (forall n r, dict_get positions n = Some r ->
      (forall t, dict_get WEAPON_MAPPINGS n = Some t ->
                 dict_get positions t = None) ->
      In (n, r) out)) /\
  Css.generate_css positions =
    (Css.header ++ flat_map (fun nr => Css.rule (fst nr) (snd nr)) out)%list /\
  (forall n x y w h,
     Css.rule n (x, y, w, h) =
       [ ".killicon-" ++ n ++ " {";
         "  width: " ++ Str.of_Z w ++ "px;";
         "  height: " ++ Str.of_Z h ++ "px;";
         "  background-position: "
           ++ Css.offset x ++ "px " ++ Css.offset y ++ "px;";
         "}";
         "" ]%string /\
     (0 <= x -> Str.to_Z (Css.offset x) = Some (- x)) /\
     (0 <= y -> Str.to_Z (Css.offset y) = Some (- y))).
Proof.
  intros out. split; [|split].
  - exact (rules_with_spec WEAPON_MAPPINGS WEAPON_MAPPINGS_keys positions).
  - reflexivity.
  - intros n x y w h.
    split; [reflexivity | split; apply offset_reads_negated].
Qed.

Lemma rules_with_mapped_block mappings positions n t r :
  NoDup (dict_keys mappings) ->
  dict_get mappings n = Some t ->
  dict_get positions t = Some r ->
  In n (dict_keys positions) ->
  (In (n, r) (Css.rules_with mappings positions) /\
   (forall r', In (n, r') (Css.rules_with mappings positions) -> r' = r)) /\
  (exists l1 l2,
     (Css.header
        ++ flat_map (fun nr => Css.rule (fst nr) (snd nr))
                    (Css.rules_with mappings positions))%list
     = (Css.header
          ++ flat_map (fun nr => Css.rule (fst nr) (snd nr)) l1
          ++ Css.rule n r
          ++ flat_map (fun nr => Css.rule (fst nr) (snd nr)) l2)%list /\
     forall m r', In (m, r') (l1 ++ l2)%list -> m <> n) /\
  count_occ string_dec
    (Css.header
       ++ flat_map (fun nr => Css.rule (fst nr) (snd nr))
                   (Css.rules_with mappings positions))%list
    (".killicon-" ++ n ++ " {")%string = 1%nat.
Proof.
  intros Hkeys Ht Hr Hn.
  destruct (rules_with_block mappings Hkeys positions n t r Ht Hr Hn)
    as (l1 & l2 & E & Hother).
  assert (Hlines :
    (Css.header
       ++ flat_map (fun nr => Css.rule (fst nr) (snd nr))
                   (Css.rules_with mappings positions))%list
    = (Css.header
         ++ flat_map (fun nr => Css.rule (fst nr) (snd nr)) l1
         ++ Css.rule n r
         ++ flat_map (fun nr => Css.rule (fst nr) (snd nr)) l2)%list).
  { rewrite E, flat_map_app. reflexivity. }
  split; [|split].
  - exact (rules_with_mapping_first mappings Hkeys positions n t r Ht Hr Hn).
  - exists l1, l2. split; [exact Hlines | exact Hother].
  - rewrite Hlines. now apply selector_once.
Qed.

(** C9: a name that is a key of the mappings table with its mapped
    name in [positions], and is a key of [positions] too, gets the
    rect of the mapped name, and no other: the lines [generate_css]
    returns are the header and the rules, the six lines of the rule of
    that name with the rect of the mapped name among them, every other
    rule is for another name, and the line that opens a rule for the
    name comes exactly once. *)
Theorem generate_css_mapping_first positions n t r :
  dict_get WEAPON_MAPPINGS n = Some t ->
  dict_get positions t = Some r ->
  In n (dict_keys positions) ->
  (In (n, r) (Css.emitted positions) /\
   (forall r', In (n, r') (Css.emitted positions) -> r' = r)) /\
  (exists l1 l2,
     Css.generate_css positions
     = (Css.header
          ++ flat_map (fun nr => Css.rule (fst nr) (snd nr)) l1
          ++ Css.rule n r
          ++ flat_map (fun nr => Css.rule (fst nr) (snd nr)) l2)%list /\
     forall m r', In (m, r') (l1 ++ l2)%list -> m <> n) /\
  count_occ string_dec (Css.generate_css positions)
            (".killicon-" ++ n ++ " {")%string = 1%nat.
Proof.
  exact (rules_with_mapped_block WEAPON_MAPPINGS positions n t r
           WEAPON_MAPPINGS_keys).
Qed.

Lemma generate_css_mapping_first_witness :
  dict_get WEAPON_MAPPINGS "holy_mackerel" = Some "holymackerel" /\
  dict_get sample_positions "holymackerel" = Some (32, 0, 64, 32) /\
  dict_get sample_positions "holy_mackerel" = Some (96, 0, 16, 16) /\
  In ("holy_mackerel", (32, 0, 64, 32)) (Css.emitted sample_positions) /\
  ~ In ("holy_mackerel", (96, 0, 16, 16)) (Css.emitted sample_positions) /\
  count_occ string_dec (Css.generate_css sample_positions)
            ".killicon-holy_mackerel {" = 1%nat /\
  In "  background-position: -32px -0px;"
     (Css.rule "holy_mackerel" (32, 0, 64, 32)).
Proof.
  destruct (generate_css_mapping_first sample_positions
              "holy_mackerel" "holymackerel" (32, 0, 64, 32) eq_refl eq_refl)
    as ([Hin Honly] & _ & Hcount).
  { simpl. tauto. }
  refine (conj eq_refl (conj eq_refl (conj eq_refl
           (conj Hin (conj _ (conj Hcount _)))))).
  - intros H. apply Honly in H. discriminate H.
  - vm_compute. tauto.
Defined.

Lemma generate_css_rules_witness :
  map fst (Css.emitted sample_positions) =
    ["env_explosion"; "holy_mackerel"; "holymackerel"; "player"; "skull";
     "trigger_hurt"; "world"] /\
  In ("world", (0, 0, 32, 32)) (Css.emitted sample_positions) /\
  In ("skull", (0, 0, 32, 32)) (Css.emitted sample_positions) /\
  Str.to_Z (Css.offset 32) = Some (-32).
Proof.
  destruct (generate_css_rules sample_positions)
    as ((_ & _ & _ & Hmapped & Hown) & _ & Hrule).
  refine (conj eq_refl (conj _ (conj _ _))).
  - apply (Hmapped "world" "skull"); [|reflexivity..].
    simpl. intros [H|[H|[H|[]]]]; discriminate H.
  - apply (Hown "skull"); [reflexivity|]. intros t H. discriminate H.
  - apply (Hrule "skull" 32 0 32 32). lia.
Defined.

(** ** Definition parser *)

Module ParserFacts.
Import Parser.

(** *** The loops never run short of fuel *)

Lemma seek_open_brace_length lines :
  (List.length (seek_open_brace lines) <= List.length lines)%nat.
Proof.
  induction lines as [|l rest IH]; simpl; [lia|].
  destruct (Str.contains "{" l); simpl; lia.
Qed.

Lemma collect_props_length lines : forall props,
  (List.length (snd (collect_props lines props)) <= List.length lines)%nat.
Proof.
  induction lines as [|l rest IH]; intros props; simpl; [lia|].
  destruct (Str.contains "}" (Str.strip l)); simpl; [lia|].
  etransitivity; [apply IH | lia].
Qed.

Lemma tl_length {A} (l : list A) : (List.length (tl l) <= List.length l)%nat.
Proof. destruct l; simpl; lia. Qed.

Lemma scan_returns name_line finish fuel : forall lines st,
  (List.length lines <= fuel)%nat ->
  exists st', scan name_line finish fuel lines st = Some st'.
Proof.
  induction fuel as [|fuel IH]; intros lines st Hlen.
  - destruct lines; [now exists st | simpl in Hlen; lia].
  - destruct lines as [|l rest]; [now exists st|].
    simpl in Hlen. cbn [scan].
    destruct (name_line (Str.strip l)); [|apply IH; lia].
    destruct (match_name (Str.strip l)) as [weapon_name|]; [|apply IH; lia].
    pose proof (collect_props_length (tl (seek_open_brace rest)) []) as H1.
    pose proof (tl_length (seek_open_brace rest)) as H2.
    pose proof (seek_open_brace_length rest) as H3.
    destruct (collect_props (tl (seek_open_brace rest)) []) as [props closing].
    simpl in H1. pose proof (tl_length closing) as H4.
    apply IH. lia.
Qed.

(** *** The numbers of a block *)

Lemma int_prop_absent props key default :
  dict_get props key = None -> int_prop props key default = Some default.
Proof. unfold int_prop. now intros ->. Qed.

Lemma int_prop_present props key default v :
  dict_get props key = Some v -> int_prop props key default = py_int v.
Proof. unfold int_prop. now intros ->. Qed.

Lemma coordinates_some props x y w h :
  coordinates props = Some (x, y, w, h) <->
  int_prop props "x" 0 = Some x /\ int_prop props "y" 0 = Some y /\
  int_prop props "width" 32 = Some w /\ int_prop props "height" 32 = Some h.
Proof.
  unfold coordinates.
  destruct (int_prop props "x" 0), (int_prop props "y" 0),
    (int_prop props "width" 32), (int_prop props "height" 32);
    split; try discriminate; try (intros (? & ? & ? & ?); discriminate).
  - intros [= -> -> -> ->]. auto.
  - intros ([= ->] & [= ->] & [= ->] & [= ->]). reflexivity.
Qed.

Lemma coordinates_none props key default v :
  In (key, default) [("x", 0); ("y", 0); ("width", 32); ("height", 32)] ->
  dict_get props key = Some v -> py_int v = None ->
  coordinates props = None.
Proof.
  intros Hk Hv Hint.
  assert (H : int_prop props key default = None)
    by (rewrite (int_prop_present _ _ _ v Hv); exact Hint).
  unfold coordinates.
  destruct Hk as [[= <- <-]|[[= <- <-]|[[= <- <-]|[[= <- <-]|[]]]]];
    rewrite H; repeat (destruct (int_prop props _ _); try reflexivity).
Qed.

(** [int] refuses a numeral behind one of the separators 28 to 31 and
    a numeral of more than 4300 digits, and takes one of 4300. *)
Lemma py_int_edges :
  py_int (String (ascii_of_nat 31) "7") = None /\
  py_int (String (ascii_of_nat 28) "7") = None /\
  py_int (String (ascii_of_nat 160) "7") = Some 7 /\
  py_int (" +1_0" ++ String (ascii_of_nat 9) "") = Some 10 /\
  py_int (chars 4301 "1") = None /\
  py_int (chars 4301 "0") = None /\
  py_int (chars 4300 "0") = Some 0.
Proof. vm_compute. repeat split. Qed.

(** *** The end of a block *)

Lemma finish_block_cases weapon_name props st :
  finish_block weapon_name props st =
  match dict_get props "dfile" with
  | Some dfile =>
      if Str.startswith dfile "HUD/d_images" then
        match coordinates props with
        | Some (x, y, w, h) =>
            mkState (dict_set (definitions st) weapon_name
                       (mkDef weapon_name
                          (Str.lower (Str.replace dfile "HUD/" "")) x y w h))
                    (warnings st)
        | None => mkState (definitions st) (warnings st ++ [weapon_name])
        end
      else st
  | None => st
  end.
Proof.
  unfold finish_block. destruct (dict_get props "dfile"); [|reflexivity].
  destruct (Str.startswith _ _); [|reflexivity].
  now destruct (coordinates props) as [[[[? ?] ?] ?]|].
Qed.

Lemma finish_community_block_cases weapon_name props st :
  finish_community_block weapon_name props st =
  match dict_get props "dfile" with
  | Some dfile =>
      if Str.contains "improvedkillicons" (Str.lower dfile) then
        match coordinates props with
        | Some (x, y, w, h) =>
            mkState (dict_set (definitions st) weapon_name
                       (mkDef weapon_name
                          ("community_" ++ last_part (slashes dfile))
                          x y w h))
                    (warnings st)
        | None => st
        end
      else st
  | None => st
  end.
Proof.
  unfold finish_community_block.
  destruct (dict_get props "dfile"); [|reflexivity].
  destruct (Str.contains _ _); [|reflexivity].
  now destruct (coordinates props) as [[[[? ?] ?] ?]|].
Qed.

(** *** The sheet id *)



End ParserFacts.

(** C4, as stated, fails: in a block of the official sheets whose [y]
    does not convert, [y] is not taken as 0: the block gives no
    definition, only a warning; in the community parser such a block is
    dropped without a warning. *)
Lemma unparsable_number_is_not_defaulted :
  Parser.py_int "abc" = None /\
  (exists st, Parser.parse_mod_textures sample_text = Some st /\
     dict_get (Parser.definitions st) "bad" = None /\
     Parser.warnings st = ["bad"]) /\
  (exists st,
     Parser.parse_community_mod_textures sample_community_text = Some st /\
     dict_get (Parser.definitions st) "bad" = None /\
     Parser.warnings st = []).
Proof.
  split; [reflexivity|].
  split; eexists; (split; [vm_compute; reflexivity|]); split; reflexivity.
Qed.

(** C4, amended: each of [x], [y], [width], [height] is 0, 0, 32, 32
    when the block does not have the property, and the converted value
    when it has it; when a property is there and does not convert, the
    block gives no definition ([parse_mod_textures] prints a warning,
    [parse_community_mod_textures] prints nothing); the scan then goes
    on with the lines after the block, and both parsers return for
    every text. *)
Theorem parse_numbers :
  (forall props x y w h,
     Parser.coordinates props = Some (x, y, w, h) ->
     (dict_get props "x" = None -> x = 0) /\
     (dict_get props "y" = None -> y = 0) /\
     (dict_get props "width" = None -> w = 32) /\
     (dict_get props "height" = None -> h = 32) /\
     (forall v, dict_get props "x" = Some v -> Parser.py_int v = Some x) /\
     (forall v, dict_get props "y" = Some v -> Parser.py_int v = Some y) /\
     (forall v, dict_get props "width" = Some v ->
                Parser.py_int v = Some w) /\
     (forall v, dict_get props "height" = Some v ->
                Parser.py_int v = Some h)) /\
  (forall props,
     dict_get props "x" = None -> dict_get props "y" = None ->
     dict_get props "width" = None -> dict_get props "height" = None ->
     Parser.coordinates props = Some (0, 0, 32, 32)) /\
  (forall weapon_name props st key default v,
     In (key, default) [("x", 0); ("y", 0); ("width", 32); ("height", 32)] ->
     dict_get props key = Some v -> Parser.py_int v = None ->
     (forall dfile, dict_get props "dfile" = Some dfile ->
        Str.startswith dfile "HUD/d_images" = true ->
        Parser.finish_block weapon_name props st =
          Parser.mkState (Parser.definitions st)
                         (Parser.warnings st ++ [weapon_name])) /\
     Parser.finish_community_block weapon_name props st = st) /\
  (forall name_line finish fuel l rest st weapon_name,
     name_line (Str.strip l) = true ->
     Parser.match_name (Str.strip l) = Some weapon_name ->
     let block :=
       Parser.collect_props (tl (Parser.seek_open_brace rest)) [] in
     Parser.scan name_line finish (S fuel) (l :: rest) st =
     Parser.scan name_line finish fuel (tl (snd block))
                 (finish weapon_name (fst block) st)) /\
  (forall content,
     (exists st, Parser.parse_mod_textures content = Some st) /\
     (exists st, Parser.parse_community_mod_textures content = Some st)) /\
  Parser.parse_mod_textures sample_text =
    Some (Parser.mkState
            [("skull", mkDef "skull" "d_images_v2" 64 0 32 32);
             ("club", mkDef "club" "d_images" 0 0 96 32)]
            ["bad"]).
Proof.
  refine (conj _ (conj _ (conj _ (conj _ (conj _ _))))).
  - intros props x0 y0 w h H.
    apply ParserFacts.coordinates_some in H.
    destruct H as (Hx & Hy & Hw & Hh).
    repeat split;
      try (intros E; rewrite (ParserFacts.int_prop_absent _ _ _ E) in *;
           congruence);
      intros v E; rewrite (ParserFacts.int_prop_present _ _ _ v E) in *;
      assumption.
  - intros props Hx Hy Hw Hh. apply ParserFacts.coordinates_some.
    now rewrite !ParserFacts.int_prop_absent.
  - intros weapon_name props st key default v Hk Hv Hint.
    pose proof (ParserFacts.coordinates_none props key default v Hk Hv Hint)
      as Hc.
    split.
    + intros dfile Hd Hp.
      now rewrite ParserFacts.finish_block_cases, Hd, Hp, Hc.
    + rewrite ParserFacts.finish_community_block_cases, Hc.
      destruct (dict_get props "dfile"); [|reflexivity].
      now destruct (Str.contains _ _).
  - intros name_line finish fuel l rest st weapon_name Hl Hm block.
    subst block. cbn [Parser.scan]. rewrite Hl, Hm.
    now destruct (Parser.collect_props _ _).
  - intros content. split; apply ParserFacts.scan_returns; lia.
  - vm_compute. reflexivity.
Qed.

Lemma parse_numbers_witness :
  let props := [("dfile", "HUD/d_images"); ("y", "abc"); ("width", " 64 ")] in
  let good := [("dfile", "HUD/d_images"); ("width", " 64 ")] in
  let odd := [("dfile", "HUD/d_images");
              ("x", String (ascii_of_nat 31) "7")] in
  let long := [("dfile", "HUD/d_images"); ("height", chars 4301 "1")] in
  Parser.coordinates [("dfile", "HUD/d_images")] = Some (0, 0, 32, 32) /\
  Parser.coordinates good = Some (0, 0, 64, 32) /\
  Parser.py_int " 64 " = Some 64 /\
  Parser.finish_block "bad" props Parser.initial = Parser.mkState [] ["bad"] /\
  Parser.finish_community_block "bad" props Parser.initial = Parser.initial /\
  Parser.finish_block "odd" odd Parser.initial = Parser.mkState [] ["odd"] /\
  Parser.finish_block "long" long Parser.initial
    = Parser.mkState [] ["long"] /\
  Parser.scan Parser.is_name_line Parser.finish_block 5
              [Parser.quote "bad"; "{";
               (Parser.quote "y" ++ " " ++ Parser.quote "abc")%string; "}";
               Parser.quote "club"] Parser.initial
    = Parser.scan Parser.is_name_line Parser.finish_block 4
                  [Parser.quote "club"]
                  (Parser.finish_block "bad" [("y", "abc")] Parser.initial).
Proof.
  intros props good odd long.
  destruct parse_numbers as (Hdef & Habsent & Hskip & Hscan & _ & _).
  destruct (Hdef good 0 0 64 32 eq_refl) as (_ & _ & _ & _ & _ & _ & Hw & _).
  destruct (Hskip "bad" props Parser.initial "y" 0 "abc")
    as (Hofficial & Hcommunity);
    [right; left; reflexivity | reflexivity | reflexivity |].
  destruct (Hskip "odd" odd Parser.initial "x" 0
                  (String (ascii_of_nat 31) "7")) as (Hodd & _);
    [left; reflexivity | reflexivity | reflexivity |].
  destruct (Hskip "long" long Parser.initial "height" 32 (chars 4301 "1"))
    as (Hlong & _);
    [right; right; right; left; reflexivity | reflexivity
     | vm_compute; reflexivity |].
  refine (conj _ (conj eq_refl (conj _ (conj _ (conj Hcommunity
           (conj _ (conj _ _))))))).
  - apply Habsent; reflexivity.
  - apply (Hw " 64 "). reflexivity.
  - apply (Hofficial "HUD/d_images"); reflexivity.
  - apply (Hodd "HUD/d_images"); reflexivity.
  - apply (Hlong "HUD/d_images"); reflexivity.
  - apply (Hscan Parser.is_name_line Parser.finish_block 4%nat
                 (Parser.quote "bad")
                 ["{"; (Parser.quote "y" ++ " " ++ Parser.quote "abc")%string;
                  "}"; Parser.quote "club"]
                 Parser.initial "bad"); reflexivity.
Defined.




(** * Further properties *)

(** ** Name resolver *)

Section ResolverMore.
Variables mappings aliases : dict string.

Lemma try_suffixes_In mapped suffixes defs d :
  try_suffixes mapped suffixes defs = Some d -> exists n, In (n, d) defs.
Proof.
  induction suffixes as [|suffix rest IH]; simpl; [discriminate|].
  destruct (dict_get defs (mapped ++ suffix)) as [d'|] eqn:E; [|exact IH].
  intros [= <-]. exists (mapped ++ suffix)%string. now apply dict_get_In.
Qed.

Lemma partial_match_In mapped defs d :
  partial_match mapped defs = Some d ->
  exists n, In (n, d) defs /\
    (Str.contains mapped n = true \/ Str.contains n mapped = true).
Proof.
  induction defs as [|[n' d'] defs IH]; simpl; [discriminate|].
  destruct (Str.contains mapped n' || Str.contains n' mapped) eqn:E.
  - intros [= <-]. exists n'. split; [now left|].
    now apply orb_true_iff.
  - intros H. destruct (IH H) as (n & Hin & Hn). exists n. tauto.
Qed.

Lemma partial_match_hit mapped defs n d :
  In (n, d) defs ->
  Str.contains mapped n = true \/ Str.contains n mapped = true ->
  partial_match mapped defs <> None.
Proof.
  intros Hin Hn. induction defs as [|[n' d'] defs IH]; [destruct Hin|].
  simpl. destruct (Str.contains mapped n' || Str.contains n' mapped) eqn:E;
    [discriminate|].
  destruct Hin as [[= -> ->]|Hin]; [|now apply IH].
  apply orb_false_iff in E. destruct E, Hn; congruence.
Qed.

(** X1: whatever definition the resolver returns is an entry of the
    table it was given; over an empty table every name that resolves is
    NotFound. *)
Theorem find_weapon_icon_sound fuel : forall weapon_name defs r,
  find_weapon_icon_with mappings aliases fuel weapon_name defs = Some r ->
  (forall d, r = Some d -> exists n, In (n, d) defs) /\
  (defs = [] -> r = None).
Proof.
  induction fuel as [|fuel IH]; intros weapon_name defs r; [discriminate|].
  rewrite find_weapon_icon_unfold. cbv zeta.
  set (mapped := match dict_get mappings weapon_name with
                 | Some m => m
                 | None => weapon_name
                 end).
  destruct (dict_get defs mapped) as [d0|] eqn:E0.
  { intros [= <-]. split.
    - intros d [= <-]. exists mapped. now apply dict_get_In.
    - intros ->. discriminate E0. }
  destruct (try_suffixes mapped _ defs) as [d1|] eqn:E1.
  { intros [= <-]. destruct (try_suffixes_In _ _ _ _ E1) as [n Hn]. split.
    - intros d [= <-]. now exists n.
    - intros ->. destruct Hn. }
  destruct (partial_match mapped defs) as [d2|] eqn:E2.
  { intros [= <-]. destruct (partial_match_In _ _ _ E2) as (n & Hn & _).
    split.
    - intros d [= <-]. now exists n.
    - intros ->. destruct Hn. }
  destruct (dict_get aliases weapon_name) as [canonical|]; [apply IH|].
  intros [= <-]. split; [discriminate | reflexivity].
Qed.

(** X2: when some definition name contains the translated name, or is
    contained in it, the resolver returns a definition: such a name is
    never NotFound. *)
Theorem find_weapon_icon_partial_hit fuel weapon_name defs n d :
  let mapped :=
    match dict_get mappings weapon_name with
    | Some m => m
    | None => weapon_name
    end in
  In (n, d) defs ->
  Str.contains mapped n = true \/ Str.contains n mapped = true ->
  exists d',
    find_weapon_icon_with mappings aliases (S fuel) weapon_name defs
    = Some (Some d').
Proof.
  intros mapped Hin Hn. rewrite find_weapon_icon_unfold. cbv zeta.
  fold mapped.
  destruct (dict_get defs mapped) as [d0|]; [now exists d0|].
  destruct (try_suffixes mapped _ defs) as [d1|]; [now exists d1|].
  pose proof (partial_match_hit mapped defs n d Hin Hn) as Hp.
  destruct (partial_match mapped defs) as [d2|]; [now exists d2|].
  now contradiction Hp.
Qed.

End ResolverMore.

Lemma find_weapon_icon_sound_witness :
  find_weapon_icon 2 "awper_hand" [("sniperrifle", sample "sniperrifle")]
    = Some (Some (sample "sniperrifle")) /\
  (exists n, In (n, sample "sniperrifle")
               [("sniperrifle", sample "sniperrifle")]) /\
  (forall r, find_weapon_icon 2 "awper_hand" [] = Some r -> r = None).
Proof.
  pose proof (find_weapon_icon_sound WEAPON_MAPPINGS WEAPON_ALIASES 2
                "awper_hand" [("sniperrifle", sample "sniperrifle")]
                (Some (sample "sniperrifle")) eq_refl) as [H1 _].
  refine (conj eq_refl (conj (H1 _ eq_refl) _)).
  intros r Hr.
  now apply (find_weapon_icon_sound WEAPON_MAPPINGS WEAPON_ALIASES 2
               "awper_hand" [] r Hr).
Defined.

Lemma find_weapon_icon_partial_hit_witness :
  Str.contains "pickaxe" "unique_pickaxe" = true /\
  exists d',
    find_weapon_icon 1 "pickaxe"
      [("skull", sample "skull"); ("unique_pickaxe", sample "unique_pickaxe")]
    = Some (Some d').
Proof.
  split; [reflexivity|].
  apply (find_weapon_icon_partial_hit WEAPON_MAPPINGS WEAPON_ALIASES 0
           "pickaxe" _ "unique_pickaxe" (sample "unique_pickaxe")).
  - right. now left.
  - left. reflexivity.
Defined.

(** ** Dictionaries, again *)

Section DictMore.
Context {V : Type}.
Implicit Types (d : dict V) (k : string) (v : V).

Lemma dict_set_In d k v k' v' :
  In (k', v') (dict_set d k v) -> (k' = k /\ v' = v) \/ In (k', v') d.
Proof.
  induction d as [|[k0 v0] d IH]; simpl.
  - intros [[= <- <-]|[]]. now left.
  - destruct (String.eqb k0 k); simpl.
    + intros [[= <- <-]|H]; [now left | right; now right].
    + intros [H|H]; [right; now left|].
      destruct (IH H); [now left | right; now right].
Qed.

Lemma dict_set_keys d k v k' :
  In k' (dict_keys (dict_set d k v)) <-> k' = k \/ In k' (dict_keys d).
Proof.
  induction d as [|[k0 v0] d IH]; simpl.
  - intuition congruence.
  - destruct (String.eqb_spec k0 k) as [->|Hne]; simpl.
    + intuition congruence.
    + unfold dict_keys in IH. rewrite IH. intuition congruence.
Qed.

Lemma dict_set_NoDup d k v :
  NoDup (dict_keys d) -> NoDup (dict_keys (dict_set d k v)).
Proof.
  induction d as [|[k0 v0] d IH]; simpl; intros Hnd.
  - repeat constructor. intros [].
  - inversion_clear Hnd as [|? ? Hk Hd].
    destruct (String.eqb_spec k0 k) as [->|Hne]; simpl.
    + now constructor.
    + constructor; [|now apply IH].
      intros Hin. apply (dict_set_keys d k v k0) in Hin.
      destruct Hin as [->|Hin]; [now apply Hne | now apply Hk].
Qed.

Lemma dict_get_keys d k : dict_get d k <> None <-> In k (dict_keys d).
Proof.
  pose proof (dict_get_None d k) as H.
  destruct (in_dec string_dec k (dict_keys d)) as [Hin|Hn].
  - split; [trivial|]. intros _ E. now apply H in E.
  - split; [|contradiction]. intros E. now apply H in Hn.
Qed.

End DictMore.

(** ** Strings, again *)

Lemma lower_char_twice c : Str.lower_char (Str.lower_char c) = Str.lower_char c.
Proof.
  destruct c as [[] [] [] [] [] [] [] []]; reflexivity.
Qed.

Lemma lower_twice s : lower_case (Str.lower s).
Proof.
  unfold lower_case. induction s as [|c s IH]; simpl; [reflexivity|].
  now rewrite lower_char_twice, IH.
Qed.

(** ** Definition parser, again *)

Module ParserMore.
Import Parser.

Section Scan.
Variable name_line : string -> bool.
Variable finish : string -> dict string -> state -> state.

(** What every end of block keeps, the whole scan keeps. *)
Lemma scan_keeps (P : state -> Prop) :
  (forall n props st, P st -> P (finish n props st)) ->
  forall fuel lines st st',
    P st -> scan name_line finish fuel lines st = Some st' -> P st'.
Proof.
  intros Hstep. induction fuel as [|fuel IH]; intros lines st st' Hst.
  - destruct lines; [intros [= <-]; exact Hst | discriminate].
  - destruct lines as [|l rest]; [intros [= <-]; exact Hst|].
    cbn [scan].
    destruct (name_line (Str.strip l)); [|now apply IH].
    destruct (match_name (Str.strip l)) as [n|]; [|now apply IH].
    destruct (collect_props (tl (seek_open_brace rest)) []) as [props closing].
    apply IH. now apply Hstep.
Qed.

Lemma scan_no_names : forall fuel lines st,
  (List.length lines <= fuel)%nat ->
  (forall l, In l lines -> name_line (Str.strip l) = false) ->
  scan name_line finish fuel lines st = Some st.
Proof.
  induction fuel as [|fuel IH]; intros lines st Hlen Hno.
  - destruct lines; [reflexivity | simpl in Hlen; lia].
  - destruct lines as [|l rest]; [reflexivity|].
    cbn [scan]. rewrite (Hno l (or_introl eq_refl)).
    apply IH; [simpl in Hlen; lia|].
    intros l' Hl'. apply Hno. now right.
Qed.

Lemma collect_props_to_end lines : forall props,
  (forall l, In l lines -> Str.contains "}" (Str.strip l) = false) ->
  snd (collect_props lines props) = [].
Proof.
  induction lines as [|l rest IH]; intros props Hno; [reflexivity|].
  cbn [collect_props]. rewrite (Hno l (or_introl eq_refl)).
  apply IH. intros l' Hl'. apply Hno. now right.
Qed.

(** X5: a block the text ends in, before its closing brace or even
    before its opening brace, is finished all the same, with the
    properties read up to the end of the text, and ends the scan. *)
Theorem scan_block_at_end fuel l rest st weapon_name :
  name_line (Str.strip l) = true ->
  match_name (Str.strip l) = Some weapon_name ->
  let body := tl (seek_open_brace rest) in
  (forall l', In l' body -> Str.contains "}" (Str.strip l') = false) ->
  scan name_line finish (S fuel) (l :: rest) st =
  Some (finish weapon_name (fst (collect_props body [])) st).
Proof.
  intros Hl Hm body Hno. cbn [scan]. rewrite Hl, Hm. fold body.
  pose proof (collect_props_to_end body [] Hno) as Hend.
  destruct (collect_props body []) as [props closing]. simpl in Hend.
  subst closing. now destruct fuel.
Qed.

End Scan.

Lemma finish_block_keeps n props st :
  (keyed_by_name (definitions st) /\
   forall k d, In (k, d) (definitions st) -> lower_case (sprite d)) ->
  keyed_by_name (definitions (finish_block n props st)) /\
  forall k d, In (k, d) (definitions (finish_block n props st)) ->
              lower_case (sprite d).
Proof.
  intros [[Hnd Hname] Hlow]. rewrite ParserFacts.finish_block_cases.
  destruct (dict_get props "dfile") as [dfile|]; [|now repeat split].
  destruct (Str.startswith dfile "HUD/d_images"); [|now repeat split].
  destruct (coordinates props) as [[[[x0 y0] w] h]|]; [|now repeat split].
  cbn [definitions]. repeat split.
  - now apply dict_set_NoDup.
  - intros k d Hin. apply dict_set_In in Hin.
    destruct Hin as [[-> ->]|Hin]; [reflexivity | now apply Hname].
  - intros k d Hin. apply dict_set_In in Hin.
    destruct Hin as [[-> ->]|Hin]; [apply lower_twice | now apply (Hlow k)].
Qed.

Lemma finish_community_block_keeps n props st :
  (keyed_by_name (definitions st) /\
   (forall k d, In (k, d) (definitions st) ->
                Str.startswith (sprite d) "community_" = true) /\
   warnings st = []) ->
  keyed_by_name (definitions (finish_community_block n props st)) /\
  (forall k d, In (k, d) (definitions (finish_community_block n props st)) ->
               Str.startswith (sprite d) "community_" = true) /\
  warnings (finish_community_block n props st) = [].
Proof.
  intros ([Hnd Hname] & Hpre & Hw).
  rewrite ParserFacts.finish_community_block_cases.
  destruct (dict_get props "dfile") as [dfile|]; [|now repeat split].
  destruct (Str.contains "improvedkillicons" (Str.lower dfile));
    [|now repeat split].
  destruct (coordinates props) as [[[[x0 y0] w] h]|]; [|now repeat split].
  cbn [definitions warnings]. repeat split.
  - now apply dict_set_NoDup.
  - intros k d Hin. apply dict_set_In in Hin.
    destruct Hin as [[-> ->]|Hin]; [reflexivity | now apply Hname].
  - intros k d Hin. apply dict_set_In in Hin.
    destruct Hin as [[-> ->]|Hin]; [|now apply (Hpre k)].
    cbn [sprite]. unfold Str.startswith. apply prefix_append.
  - exact Hw.
Qed.

End ParserMore.

(** X3: in the table [parse_mod_textures] returns no name comes twice,
    every entry carries its key as its name and a sheet id in lower
    case; in the table [parse_community_mod_textures] returns no name
    comes twice, every entry carries its key as its name and a sheet
    id that starts with [community_], and the community parser never
    warns. *)
Theorem parsed_definitions_keyed content st :
  (Parser.parse_mod_textures content = Some st ->
   keyed_by_name (Parser.definitions st) /\
   forall k d, In (k, d) (Parser.definitions st) -> lower_case (sprite d)) /\
  (Parser.parse_community_mod_textures content = Some st ->
   keyed_by_name (Parser.definitions st) /\
   (forall k d, In (k, d) (Parser.definitions st) ->
                Str.startswith (sprite d) "community_" = true) /\
   Parser.warnings st = []).
Proof.
  split; intros H.
  - refine (ParserMore.scan_keeps _ _ _ ParserMore.finish_block_keeps
              _ _ _ _ _ H).
    repeat split; [constructor | intros ? ? [] | intros ? ? []].
  - refine (ParserMore.scan_keeps _ _ _ ParserMore.finish_community_block_keeps
              _ _ _ _ _ H).
    repeat split; [constructor | intros ? ? [] | intros ? ? []].
Qed.

Lemma parsed_definitions_keyed_witness :
  exists st,
    Parser.parse_mod_textures sample_text = Some st /\
    dict_keys (Parser.definitions st) = ["skull"; "club"] /\
    keyed_by_name (Parser.definitions st) /\
    exists st',
      Parser.parse_community_mod_textures sample_community_text = Some st' /\
      Parser.warnings st' = [].
Proof.
  eexists. split; [vm_compute; reflexivity|]. split; [reflexivity|].
  split.
  - eapply (proj1 (parsed_definitions_keyed sample_text _)).
    vm_compute. reflexivity.
  - eexists. split; [vm_compute; reflexivity|].
    eapply (proj2 (parsed_definitions_keyed sample_community_text _)).
    vm_compute. reflexivity.
Defined.

(** X4: a text none of whose lines starts, white space aside, with a
    double quote has no block: both parsers return the empty table and
    print no warning. *)
Theorem no_quoted_line_no_definition content :
  (forall l, In l (Str.split Parser.newline content) ->
     Str.startswith (Str.strip l) (String Parser.dquote "") = false) ->
  Parser.parse_mod_textures content = Some Parser.initial /\
  Parser.parse_community_mod_textures content = Some Parser.initial.
Proof.
  intros Hno. split; apply ParserMore.scan_no_names; try lia;
    intros l Hl.
  - unfold Parser.is_name_line. now rewrite (Hno l Hl).
  - unfold Parser.is_community_name_line. now rewrite (Hno l Hl).
Qed.

Lemma no_quoted_line_no_definition_witness :
  let content := Parser.text ["// killicons"; ""; "  {"; "}"] in
  Parser.parse_mod_textures content = Some Parser.initial /\
  Parser.parse_community_mod_textures content = Some Parser.initial.
Proof.
  intros content. apply no_quoted_line_no_definition.
  intros l Hl. vm_compute in Hl.
  destruct Hl as [<-|[<-|[<-|[<-|[]]]]]; reflexivity.
Defined.

Lemma scan_block_at_end_witness :
  let unopened := [Parser.quote "skull"; "// no brace follows"] in
  let unclosed :=
    [Parser.quote "skull"; "{";
     (Parser.quote "dfile" ++ " " ++ Parser.quote "HUD/d_images")%string] in
  Parser.scan Parser.is_name_line Parser.finish_block 2 unopened Parser.initial
    = Some Parser.initial /\
  Parser.scan Parser.is_name_line Parser.finish_block 3 unclosed Parser.initial
    = Some (Parser.mkState
              [("skull", mkDef "skull" "d_images" 0 0 32 32)] []).
Proof.
  intros unopened unclosed. split.
  - apply (ParserMore.scan_block_at_end Parser.is_name_line Parser.finish_block
             1 (Parser.quote "skull") ["// no brace follows"]
             Parser.initial "skull" eq_refl eq_refl).
    intros l' [].
  - apply (ParserMore.scan_block_at_end Parser.is_name_line Parser.finish_block
             2 (Parser.quote "skull")
             ["{"; (Parser.quote "dfile" ++ " "
                      ++ Parser.quote "HUD/d_images")%string]
             Parser.initial "skull" eq_refl eq_refl).
    intros l' [<-|[]]. reflexivity.
Defined.

(** ** Sprite packer, again *)

Module PackerMore.
Import Packer.

Lemma filter_insert (h : Z) item l :
  filter (fun it => key it =? h) (insert item l) =
  filter (fun it => key it =? h) (item :: l).
Proof.
  induction l as [|e l IH]; [reflexivity|].
  cbn [insert]. destruct (Z.ltb_spec (key item) (key e)) as [Hlt|Hge];
    [|reflexivity].
  cbn [filter] in *. rewrite IH.
  destruct (Z.eqb_spec (key item) h) as [Ei|Ei];
    destruct (Z.eqb_spec (key e) h) as [Ee|Ee]; try reflexivity.
  lia.
Qed.

Lemma placements_positions icons aliases :
  snd (pack_sprites icons aliases) =
  match icons with
  | [] => []
  | _ => add_aliases (placements icons) aliases
  end.
Proof. now destruct icons. Qed.

Lemma placements_has icons n :
  dict_get (placements icons) n <> None <-> In n (dict_keys icons).
Proof.
  unfold placements. split.
  - intros H. destruct (in_dec string_dec n (dict_keys icons)) as [|Hn];
      [assumption|].
    exfalso. apply H. rewrite PackerFacts.place_all_other; [reflexivity|].
    intros Hin. apply Hn. eapply Permutation_in; [|exact Hin].
    apply Permutation_map, PackerFacts.sorted_icons_perm.
  - intros Hin. apply PackerFacts.place_all_covers.
    eapply Permutation_in; [|exact Hin].
    apply Permutation_map, Permutation_sym, PackerFacts.sorted_icons_perm.
Qed.

(** *** Rows and the target width *)

Lemma place_in_row c item :
  packing c ->
  (forall n x0 y0 w h, dict_get (positions c) n = Some (x0, y0, w, h) ->
     x0 = 0 \/ x0 + w <= target_width) ->
  forall n x0 y0 w h,
    dict_get (positions (place c item)) n = Some (x0, y0, w, h) ->
    x0 = 0 \/ x0 + w <= target_width.
Proof.
  intros [Hc _ _] Hrows n x0 y0 w h.
  destruct item as [m [[img ow] oh]]. cbn [place positions].
  rewrite dict_get_set. destruct (String.eqb m n).
  - intros [= <- <- <- <-]. unfold next_row.
    destruct (breaks_row c img) eqn:Hb; simpl; [now left|].
    unfold breaks_row in Hb. apply andb_false_iff in Hb.
    rewrite !Z.gtb_ltb, !Z.ltb_ge in Hb. lia.
  - unfold next_row. destruct (breaks_row c img); apply Hrows.
Qed.

Lemma place_within (W : Z) c item :
  packing c ->
  img_width (fst (fst (snd item))) <= W ->
  max_width c <= Z.max target_width W ->
  max_width (place c item) <= Z.max target_width W.
Proof.
  intros [Hc _ _] Hw Hm. destruct item as [m [[img ow] oh]].
  cbn [place max_width current_x snd fst] in *. unfold next_row.
  destruct (breaks_row c img) eqn:Hb; simpl; [lia|].
  unfold breaks_row in Hb. apply andb_false_iff in Hb.
  rewrite !Z.gtb_ltb, !Z.ltb_ge in Hb. lia.
Qed.

Lemma place_all_in_row items : forall c,
  packing c ->
  (forall n x0 y0 w h, dict_get (positions c) n = Some (x0, y0, w, h) ->
     x0 = 0 \/ x0 + w <= target_width) ->
  forall n x0 y0 w h,
    dict_get (positions (place_all c items)) n = Some (x0, y0, w, h) ->
    x0 = 0 \/ x0 + w <= target_width.
Proof.
  induction items as [|item items IH]; intros c Hc Hrows; [exact Hrows|].
  rewrite PackerFacts.place_all_cons. apply IH.
  - now apply PackerFacts.packing_place.
  - now apply place_in_row.
Qed.

Lemma place_all_within (W : Z) items : forall c,
  packing c ->
  (forall item, In item items -> img_width (fst (fst (snd item))) <= W) ->
  max_width c <= Z.max target_width W ->
  max_width (place_all c items) <= Z.max target_width W.
Proof.
  induction items as [|item items IH]; intros c Hc Hw Hm; [exact Hm|].
  rewrite PackerFacts.place_all_cons. apply IH.
  - now apply PackerFacts.packing_place.
  - intros i Hi. apply Hw. now right.
  - apply place_within; [assumption | apply Hw; now left | assumption].
Qed.

(** *** The sheet is no larger than it has to be *)

Lemma place_tight c item :
  packing c ->
  dict_get (positions c) (fst item) = None ->
  (max_width c = 0 \/
   exists n x0 y0 w h, dict_get (positions c) n = Some (x0, y0, w, h) /\
                       x0 + w = max_width c) ->
  (row_height c = 0 \/
   exists n x0 y0 w h, dict_get (positions c) n = Some (x0, y0, w, h) /\
                       y0 + h = current_y c + row_height c) ->
  (exists n x0 y0 w h,
     dict_get (positions (place c item)) n = Some (x0, y0, w, h) /\
     x0 + w = max_width (place c item)) /\
  (exists n x0 y0 w h,
     dict_get (positions (place c item)) n = Some (x0, y0, w, h) /\
     y0 + h = current_y (place c item) + row_height (place c item)).
Proof.
  intros Hpack Hfresh Hwide Hhigh.
  pose proof (PackerFacts.packing_next_row c (fst (fst (snd item))) Hpack)
    as [Hc' _ _].
  destruct Hpack as [Hc _ _].
  destruct item as [m [[img ow] oh]]. cbn [fst snd] in *.
  pose proof (PackerFacts.img_width_nonneg img).
  pose proof (PackerFacts.img_height_nonneg img).
  assert (Hold : forall n r, dict_get (positions c) n = Some r ->
            dict_get (positions (place c (m, (img, ow, oh)))) n = Some r).
  { intros n r Hn. rewrite PackerFacts.place_other; [assumption|].
    cbn [fst]. intros ->. congruence. }
  pose proof (PackerFacts.place_position c m (img, ow, oh)) as Hnew.
  cbn [fst] in Hnew.
  cbn [place max_width current_y row_height].
  set (c' := next_row c img) in *.
  assert (Hsame : breaks_row c img = false -> c' = c)
    by (intros Hb; subst c'; unfold next_row; now rewrite Hb).
  assert (Hbreak : breaks_row c img = true ->
            row_height c' = 0 /\ max_width c' = max_width c)
    by (intros Hb; subst c'; unfold next_row; now rewrite Hb).
  assert (Hmw : max_width c' = max_width c)
    by (subst c'; unfold next_row; now destruct (breaks_row c img)).
  split.
  - destruct (Z_le_gt_dec (max_width c') (current_x c' + img_width img))
      as [Hle|Hgt].
    + exists m, (current_x c'), (current_y c'), (img_width img),
        (img_height img).
      split; [exact Hnew | lia].
    + destruct Hwide as [Hz|(n & x0 & y0 & w & h & Hn & E)]; [lia|].
      exists n, x0, y0, w, h. split; [now apply Hold | lia].
  - destruct (Z_le_gt_dec (row_height c') (img_height img)) as [Hle|Hgt].
    + exists m, (current_x c'), (current_y c'), (img_width img),
        (img_height img).
      split; [exact Hnew | lia].
    + destruct (breaks_row c img) eqn:Hb.
      * destruct (Hbreak eq_refl). lia.
      * pose proof (Hsame eq_refl) as Ec.
        assert (Er : row_height c' = row_height c) by now rewrite Ec.
        assert (Ey : current_y c' = current_y c) by now rewrite Ec.
        destruct Hhigh as [Hz|(n & x0 & y0 & w & h & Hn & E)]; [lia|].
        exists n, x0, y0, w, h. split; [now apply Hold | lia].
Qed.

Lemma place_all_tight items : forall c,
  items <> [] ->
  packing c ->
  NoDup (map fst items) ->
  (forall n, In n (map fst items) -> dict_get (positions c) n = None) ->
  (max_width c = 0 \/
   exists n x0 y0 w h, dict_get (positions c) n = Some (x0, y0, w, h) /\
                       x0 + w = max_width c) ->
  (row_height c = 0 \/
   exists n x0 y0 w h, dict_get (positions c) n = Some (x0, y0, w, h) /\
                       y0 + h = current_y c + row_height c) ->
  (exists n x0 y0 w h,
     dict_get (positions (place_all c items)) n = Some (x0, y0, w, h) /\
     x0 + w = max_width (place_all c items)) /\
  (exists n x0 y0 w h,
     dict_get (positions (place_all c items)) n = Some (x0, y0, w, h) /\
     y0 + h = current_y (place_all c items) + row_height (place_all c items)).
Proof.
  induction items as [|item items IH]; intros c Hne Hc Hnd Hfresh Hw Hh;
    [contradiction|].
  rewrite PackerFacts.place_all_cons.
  inversion_clear Hnd as [|? ? Hi Hnd'].
  pose proof (place_tight c item Hc (Hfresh _ (or_introl eq_refl)) Hw Hh)
    as [Hw' Hh'].
  destruct items as [|item' items]; [now split|].
  apply IH.
  - discriminate.
  - now apply PackerFacts.packing_place.
  - assumption.
  - intros n Hn. rewrite PackerFacts.place_other.
    + apply Hfresh. now right.
    + intros E. subst n. contradiction.
  - now right.
  - now right.
Qed.

End PackerMore.

(** X6: the sort of the packer is stable: the icons of one height come
    out in the order [icons] holds them. *)
Theorem sorted_icons_stable icons (h : Z) :
  filter (fun it => Packer.key it =? h) (Packer.sorted_icons icons) =
  filter (fun it => Packer.key it =? h) icons.
Proof.
  induction icons as [|item icons IH]; [reflexivity|].
  cbn [Packer.sorted_icons fold_right].
  rewrite PackerMore.filter_insert. cbn [filter].
  fold (Packer.sorted_icons icons). now rewrite IH.
Qed.

(** X7: the rect recorded for an icon has the width and the height of
    its image, and that is the rect the returned table gives for a
    name that is no alias. *)
Theorem pack_sprites_rect_size icons aliases n img ow oh :
  NoDup (dict_keys icons) ->
  dict_get icons n = Some (img, ow, oh) ->
  exists x0 y0,
    dict_get (Packer.placements icons) n
      = Some (x0, y0, img_width img, img_height img) /\
    (dict_get aliases n = None ->
     dict_get (snd (Packer.pack_sprites icons aliases)) n
       = Some (x0, y0, img_width img, img_height img)).
Proof.
  intros Hnd Hn. apply dict_get_In in Hn.
  assert (Hs : In (n, (img, ow, oh)) (Packer.sorted_icons icons)).
  { eapply Permutation_in; [|exact Hn].
    apply Permutation_sym, PackerFacts.sorted_icons_perm. }
  destruct (in_split _ _ Hs) as (before & after & Hsplit).
  pose proof (sorted_icons_later icons before n _ after Hnd Hsplit) as Hlater.
  pose proof (placements_split icons before n _ after Hsplit Hlater) as Hpos.
  cbn [fst] in Hpos. cbv zeta in Hpos.
  eexists _, _. split; [exact Hpos|].
  intros Ha. rewrite PackerMore.placements_positions.
  destruct icons; [destruct Hn|].
  rewrite PackerFacts.add_aliases_other by now apply dict_get_None.
  exact Hpos.
Qed.

Lemma pack_sprites_rect_size_witness :
  let icons := [("club", image 300 20); ("bat", image 200 40)] in
  NoDup (dict_keys icons) /\
  exists x0 y0,
    dict_get (snd (Packer.pack_sprites icons WEAPON_ALIASES)) "club"
    = Some (x0, y0, 300, 20).
Proof.
  intros icons.
  assert (Hnd : NoDup (dict_keys icons))
    by (apply distinct_NoDup; reflexivity).
  split; [exact Hnd|].
  destruct (pack_sprites_rect_size icons WEAPON_ALIASES "club"
              (mkImage 300 20) 300 20 Hnd eq_refl) as (x0 & y0 & _ & H).
  exists x0, y0. apply H. reflexivity.
Defined.

(** X8: no image is put across the target width of 512 unless it
    starts its row: every rect of the returned table starts at 0 or
    ends at 512 or before; so a sheet is no wider than 512, or than its
    widest image when that is wider. *)
Theorem pack_sprites_row_width icons aliases :
  (forall n x0 y0 w h,
     dict_get (snd (Packer.pack_sprites icons aliases)) n
       = Some (x0, y0, w, h) ->
     x0 = 0 \/ x0 + w <= 512) /\
  (forall W,
     (forall n ic, In (n, ic) icons -> img_width (fst (fst ic)) <= W) ->
     sheet_width (fst (Packer.pack_sprites icons aliases)) <= Z.max 512 W).
Proof.
  split.
  - intros n x0 y0 w h. rewrite PackerMore.placements_positions.
    destruct icons as [|item icons]; [discriminate|].
    intros Hn. apply PackerFacts.add_aliases_from in Hn.
    destruct Hn as [n' Hn].
    apply (PackerMore.place_all_in_row _ Packer.start
             PackerFacts.packing_start) in Hn; [exact Hn|].
    intros ? ? ? ? ? [=].
  - intros W Hw. destruct icons as [|item icons]; [simpl; lia|].
    rewrite pack_sprites_nonempty by discriminate.
    cbv zeta. cbn [fst sheet_width].
    apply PackerMore.place_all_within.
    + apply PackerFacts.packing_start.
    + intros [n ic] Hi. apply (Hw n). eapply Permutation_in; [|exact Hi].
      apply PackerFacts.sorted_icons_perm.
    + unfold Packer.target_width. cbn [Packer.max_width Packer.start]. lia.
Qed.

Lemma pack_sprites_row_width_witness :
  let icons := [("club", image 300 20); ("bat", image 300 40);
                ("knife", image 100 20)] in
  (0 = 0 \/ 0 + 300 <= 512) /\
  sheet_width (fst (Packer.pack_sprites icons WEAPON_ALIASES)) <= 512.
Proof.
  intros icons.
  destruct (pack_sprites_row_width icons WEAPON_ALIASES) as [Hrow Hwide].
  split.
  - apply (Hrow "club" 0 40 300 20). reflexivity.
  - apply (Hwide 300). intros n ic [[= <- <-]|[[= <- <-]|[[= <- <-]|[]]]];
      vm_compute; discriminate.
Defined.

(** X9: the sheet of a non-empty [icons] is exactly as wide and as
    high as the rects of the first pass reach: one of them ends at the
    right edge, one at the bottom edge. *)
Theorem pack_sprites_tight icons aliases :
  icons <> [] ->
  NoDup (dict_keys icons) ->
  let sheet := fst (Packer.pack_sprites icons aliases) in
  (exists n x0 y0 w h,
     dict_get (Packer.placements icons) n = Some (x0, y0, w, h) /\
     x0 + w = sheet_width sheet) /\
  (exists n x0 y0 w h,
     dict_get (Packer.placements icons) n = Some (x0, y0, w, h) /\
     y0 + h = sheet_height sheet).
Proof.
  intros Hne Hnd sheet. subst sheet.
  rewrite pack_sprites_nonempty by assumption.
  cbv zeta. cbn [fst sheet_width sheet_height]. unfold Packer.placements.
  apply PackerMore.place_all_tight.
  - intros E. apply Hne.
    apply Permutation_nil. rewrite <- E.
    apply PackerFacts.sorted_icons_perm.
  - apply PackerFacts.packing_start.
  - eapply Permutation_NoDup; [|exact Hnd].
    apply Permutation_map, Permutation_sym, PackerFacts.sorted_icons_perm.
  - reflexivity.
  - now left.
  - now left.
Qed.

Lemma pack_sprites_tight_witness :
  let icons := [("club", image 300 20); ("bat", image 200 40)] in
  icons <> [] /\ NoDup (dict_keys icons) /\
  fst (Packer.pack_sprites icons WEAPON_ALIASES)
    = mkSheet 500 40 [(mkImage 200 40, (0, 0)); (mkImage 300 20, (200, 0))] /\
  exists n x0 y0 w h,
    dict_get (Packer.placements icons) n = Some (x0, y0, w, h) /\
    x0 + w = 500.
Proof.
  intros icons.
  assert (Hne : icons <> []) by discriminate.
  assert (Hnd : NoDup (dict_keys icons))
    by (apply distinct_NoDup; reflexivity).
  refine (conj Hne (conj Hnd (conj eq_refl _))).
  exact (proj1 (pack_sprites_tight icons WEAPON_ALIASES Hne Hnd)).
Defined.

Lemma packed_names icons n :
  dict_get (snd (Packer.pack_sprites icons WEAPON_ALIASES)) n <> None <->
  In n (dict_keys icons) \/
  exists canonical,
    dict_get WEAPON_ALIASES n = Some canonical /\
    In canonical (dict_keys icons).
Proof.
  rewrite PackerMore.placements_positions.
  destruct icons as [|item icons].
  { split; [intros H; now contradiction H | intros [[]|(c & _ & [])]]. }
  set (all := item :: icons).
  destruct (dict_get WEAPON_ALIASES n) as [canonical|] eqn:Ha.
  - destruct (add_aliases_flat WEAPON_ALIASES WEAPON_ALIASES_keys
                WEAPON_ALIASES_is_flat (Packer.placements all)
                n canonical (dict_get_In _ _ _ Ha)) as [_ Hal].
    rewrite Hal. rewrite <- !PackerMore.placements_has.
    destruct (dict_get (Packer.placements all) canonical) as [r|] eqn:Hc.
    + split; [|discriminate]. intros _. right. exists canonical.
      split; [reflexivity|]. apply PackerMore.placements_has.
      rewrite Hc. discriminate.
    + split; [now left|]. intros [H|(c & [= <-] & H)]; [assumption|].
      apply PackerMore.placements_has in H. now contradiction H.
  - rewrite PackerFacts.add_aliases_other by now apply dict_get_None.
    rewrite PackerMore.placements_has.
    split; [now left | intros [H|(c & [=] & _)]; assumption].
Qed.

(** X10: the names of the table [pack_sprites] returns over the alias
    table of the script are the names of [icons] and the aliases whose
    canonical name is a name of [icons], and no other. *)
Theorem pack_sprites_names icons n :
  dict_get (snd (Packer.pack_sprites icons WEAPON_ALIASES)) n <> None <->
  In n (dict_keys icons) \/
  exists canonical,
    dict_get WEAPON_ALIASES n = Some canonical /\
    In canonical (dict_keys icons).
Proof. exact (packed_names icons n). Qed.

Lemma pack_sprites_names_witness :
  let icons := [("sniperrifle", image 96 32)] in
  dict_get (snd (Packer.pack_sprites icons WEAPON_ALIASES)) "awper_hand"
    <> None /\
  ~ dict_get (snd (Packer.pack_sprites icons WEAPON_ALIASES)) "compound_bow"
    <> None.
Proof.
  intros icons. split.
  - apply (pack_sprites_names icons "awper_hand"). right.
    exists "sniperrifle". split; [reflexivity | now left].
  - intros H. apply (pack_sprites_names icons "compound_bow") in H.
    destruct H as [[H|[]]|(c & [= <-] & [H|[]])]; discriminate H.
Defined.

(** ** The run of [main] *)

Module MainFacts.
Import Main.

(** *** Merging the two tables *)

Lemma update_cons {V} (d : dict V) k v other :
  update d ((k, v) :: other) = update (dict_set d k v) other.
Proof. reflexivity. Qed.

Lemma update_get {V} (other : dict V) : forall d k,
  NoDup (dict_keys other) ->
  dict_get (update d other) k =
  match dict_get other k with
  | Some v => Some v
  | None => dict_get d k
  end.
Proof.
  induction other as [|[k0 v0] other IH]; intros d k Hnd; [reflexivity|].
  inversion_clear Hnd as [|? ? Hk Hother].
  rewrite update_cons, IH by assumption. cbn [dict_get].
  rewrite dict_get_set.
  destruct (String.eqb_spec k0 k) as [<-|Hne]; [|reflexivity].
  apply dict_get_None in Hk. now rewrite Hk.
Qed.

Lemma update_NoDup {V} (other : dict V) : forall d,
  NoDup (dict_keys d) -> NoDup (dict_keys (update d other)).
Proof.
  induction other as [|[k0 v0] other IH]; intros d Hd; [exact Hd|].
  rewrite update_cons. apply IH. now apply dict_set_NoDup.
Qed.

Lemma dict_set_keys_order {V} (d : dict V) k v :
  dict_keys (dict_set d k v) =
  if dict_mem d k then dict_keys d else (dict_keys d ++ [k])%list.
Proof.
  unfold dict_mem. induction d as [|[k0 v0] d IH]; [reflexivity|].
  cbn [dict_set dict_get]. destruct (String.eqb_spec k0 k) as [->|Hne].
  - reflexivity.
  - cbn [dict_keys map fst]. fold (dict_keys (dict_set d k v)). rewrite IH.
    now destruct (dict_get d k).
Qed.

Lemma update_keys {V} (other : dict V) : forall d,
  NoDup (dict_keys other) ->
  dict_keys (update d other) =
  (dict_keys d
     ++ filter (fun k => negb (dict_mem d k)) (dict_keys other))%list.
Proof.
  induction other as [|[k0 v0] other IH]; intros d Hnd.
  - simpl. now rewrite app_nil_r.
  - inversion_clear Hnd as [|? ? Hk Hother].
    rewrite update_cons, IH by assumption.
    assert (Hsame : filter (fun k => negb (dict_mem (dict_set d k0 v0) k))
                           (dict_keys other)
                    = filter (fun k => negb (dict_mem d k)) (dict_keys other)).
    { apply filter_ext_in. intros k Hin. unfold dict_mem.
      rewrite dict_get_set_other; [reflexivity|].
      intros ->. contradiction. }
    rewrite Hsame, dict_set_keys_order. cbn [dict_keys map fst filter].
    destruct (dict_mem d k0); cbn [negb]; [reflexivity|].
    now rewrite <- app_assoc.
Qed.

(** *** The extraction loop *)

Section Extract.
Variable crop : Image -> Z * Z * Z * Z -> option Image.
Variable sprites : dict Image.
Variable defs : dict KilliconDefinition.

Lemma extract_one_icons acc n :
  icons (extract_one crop sprites defs acc n) =
  match icon_for crop sprites defs n with
  | Some v => dict_set (icons acc) n v
  | None => icons acc
  end.
Proof.
  unfold extract_one, icon_for.
  destruct (resolve n defs) as [d|]; [|reflexivity].
  destruct (dict_get sprites (sprite d)) as [sheet|]; [|reflexivity].
  now destruct (crop sheet (box d)).
Qed.

Lemma extract_one_missing acc n m :
  In m (missing (extract_one crop sprites defs acc n)) <->
  In m (missing acc) \/ (m = n /\ resolve n defs = None).
Proof.
  unfold extract_one.
  destruct (resolve n defs) as [d|].
  - assert (E : missing
                  match dict_get sprites (sprite d) with
                  | Some sheet =>
                      match crop sheet (box d) with
                      | Some icon =>
                          mkExtraction
                            (dict_set (icons acc) n (icon, width d, height d))
                            (missing acc)
                      | None => acc
                      end
                  | None => acc
                  end = missing acc).
    { destruct (dict_get sprites (sprite d)); [|reflexivity].
      now destruct (crop _ _). }
    rewrite E. split; [now left | intros [H|[_ [=]]]; exact H].
  - cbn [missing]. rewrite in_app_iff. simpl. intuition congruence.
Qed.

Lemma extract_loop_other names : forall acc n,
  ~ In n names ->
  dict_get (icons (fold_left (extract_one crop sprites defs) names acc)) n =
  dict_get (icons acc) n.
Proof.
  induction names as [|m names IH]; intros acc n Hn; [reflexivity|].
  cbn [fold_left]. rewrite IH by (simpl in Hn; tauto).
  rewrite extract_one_icons.
  destruct (icon_for crop sprites defs m); [|reflexivity].
  apply dict_get_set_other. simpl in Hn. tauto.
Qed.

Lemma extract_loop_get names : forall acc n,
  In n names ->
  dict_get (icons (fold_left (extract_one crop sprites defs) names acc)) n =
  match icon_for crop sprites defs n with
  | Some v => Some v
  | None => dict_get (icons acc) n
  end.
Proof.
  induction names as [|m names IH]; intros acc n Hn; [destruct Hn|].
  cbn [fold_left].
  assert (Hstep : dict_get (icons (extract_one crop sprites defs acc m)) n =
                  if String.eqb m n then
                    match icon_for crop sprites defs n with
                    | Some v => Some v
                    | None => dict_get (icons acc) n
                    end
                  else dict_get (icons acc) n).
  { rewrite extract_one_icons.
    destruct (String.eqb_spec m n) as [->|Hne].
    - destruct (icon_for crop sprites defs n); [|reflexivity].
      apply dict_get_set_same.
    - destruct (icon_for crop sprites defs m); [|reflexivity].
      now apply dict_get_set_other. }
  destruct (in_dec string_dec n names) as [Hin|Hout].
  - rewrite IH by assumption.
    destruct (icon_for crop sprites defs n) eqn:E; [reflexivity|].
    rewrite Hstep. now destruct (String.eqb m n).
  - rewrite extract_loop_other by assumption.
    destruct Hn as [->|Hn]; [|contradiction].
    now rewrite Hstep, String.eqb_refl.
Qed.

Lemma extract_loop_missing names : forall acc m,
  In m (missing (fold_left (extract_one crop sprites defs) names acc)) <->
  In m (missing acc) \/ (In m names /\ resolve m defs = None).
Proof.
  induction names as [|n names IH]; intros acc m; cbn [fold_left].
  - simpl. tauto.
  - rewrite IH, extract_one_missing. simpl. intuition (subst; auto).
Qed.

Lemma extract_loop_NoDup names : forall acc,
  NoDup (dict_keys (icons acc)) ->
  NoDup (dict_keys
           (icons (fold_left (extract_one crop sprites defs) names acc))).
Proof.
  induction names as [|n names IH]; intros acc Hacc; [exact Hacc|].
  cbn [fold_left]. apply IH. rewrite extract_one_icons.
  destruct (icon_for crop sprites defs n); [|assumption].
  now apply dict_set_NoDup.
Qed.

Lemma extract_get n :
  dict_get (icons (extract crop sprites defs)) n =
  if in_dec string_dec n (dict_keys defs)
  then icon_for crop sprites defs n
  else None.
Proof.
  unfold extract. destruct (in_dec string_dec n (dict_keys defs)) as [Hin|Hn].
  - rewrite extract_loop_get by assumption.
    now destruct (icon_for crop sprites defs n).
  - now rewrite extract_loop_other.
Qed.

End Extract.

(** A name that the mappings table does not rename resolves to the
    definition stored under it. *)
Lemma resolve_own defs n d :
  dict_get WEAPON_MAPPINGS n = None ->
  dict_get defs n = Some d ->
  resolve n defs = Some d.
Proof.
  intros Hm Hd. unfold resolve, find_weapon_icon.
  rewrite find_weapon_icon_unfold. cbv zeta. now rewrite Hm, Hd.
Qed.

(** Two calls are enough for every resolution. *)
Lemma resolve_any_fuel fuel n defs :
  find_weapon_icon (S (S fuel)) n defs = Some (resolve n defs).
Proof.
  assert (Htwo : exists r, find_weapon_icon 2 n defs = Some r).
  { unfold find_weapon_icon. rewrite find_weapon_icon_unfold. cbv zeta.
    destruct (dict_get defs _); [eauto|].
    destruct (try_suffixes _ _ _); [eauto|].
    destruct (partial_match _ _); [eauto|].
    destruct (dict_get WEAPON_ALIASES n) as [canonical|] eqn:Ha; [|eauto].
    apply dict_get_In, WEAPON_ALIASES_flat in Ha.
    rewrite find_weapon_icon_unfold. cbv zeta. rewrite Ha.
    destruct (dict_get defs _); [eauto|].
    destruct (try_suffixes _ _ _); [eauto|].
    destruct (partial_match _ _); eauto. }
  destruct Htwo as [r Hr]. unfold resolve. rewrite Hr.
  induction fuel as [|fuel IH]; [exact Hr|].
  now apply find_weapon_icon_fuel_mono.
Qed.

End MainFacts.

(** X11: [definitions.update(community_definitions)] gives every name
    of the community table the community definition and leaves the
    other names their own; the names already there keep their place in
    the iteration order, the new ones follow in the order of the
    community table, and no name comes twice. *)
Theorem update_overrides (d other : dict KilliconDefinition) :
  NoDup (dict_keys other) ->
  (forall k, dict_get (Main.update d other) k =
     match dict_get other k with
     | Some v => Some v
     | None => dict_get d k
     end) /\
  dict_keys (Main.update d other) =
    (dict_keys d
       ++ filter (fun k => negb (dict_mem d k)) (dict_keys other))%list /\
  (NoDup (dict_keys d) -> NoDup (dict_keys (Main.update d other))).
Proof.
  intros Hnd. split; [|split].
  - intros k. now apply MainFacts.update_get.
  - now apply MainFacts.update_keys.
  - apply MainFacts.update_NoDup.
Qed.

Lemma update_overrides_witness :
  let official := [("skull", sample "skull"); ("club", sample "club")] in
  let community :=
    [("telefrag", mkDef "telefrag" "community_d" 0 0 32 32);
     ("skull", mkDef "skull" "community_d" 32 0 32 32)] in
  NoDup (dict_keys community) /\
  dict_get (Main.update official community) "skull"
    = Some (mkDef "skull" "community_d" 32 0 32 32) /\
  dict_keys (Main.update official community) = ["skull"; "club"; "telefrag"].
Proof.
  intros official community.
  assert (Hnd : NoDup (dict_keys community))
    by (apply distinct_NoDup; reflexivity).
  destruct (update_overrides official community Hnd) as (Hget & Hkeys & _).
  refine (conj Hnd (conj _ _)).
  - now rewrite Hget.
  - now rewrite Hkeys.
Defined.

(** X12: the loop of [main] stores an icon for a name exactly when the
    name is a definition name, resolves, has the sheet of its resolved
    definition loaded and is cropped without an exception; the entry
    then holds the cropped image with the width and height of the
    resolved definition; no name is stored twice. *)
Theorem extract_icons crop sprites defs n :
  (In n (dict_keys defs) ->
   dict_get (Main.icons (Main.extract crop sprites defs)) n
     = icon_for crop sprites defs n) /\
  (~ In n (dict_keys defs) ->
   dict_get (Main.icons (Main.extract crop sprites defs)) n = None) /\
  (forall img w h,
     dict_get (Main.icons (Main.extract crop sprites defs)) n
       = Some (img, w, h) ->
     exists d sheet,
       Main.resolve n defs = Some d /\
       dict_get sprites (sprite d) = Some sheet /\
       crop sheet (x d, y d, x d + width d, y d + height d) = Some img /\
       w = width d /\ h = height d) /\
  NoDup (dict_keys (Main.icons (Main.extract crop sprites defs))).
Proof.
  pose proof (MainFacts.extract_get crop sprites defs n) as Hget.
  refine (conj _ (conj _ (conj _ _))).
  - intros Hin. rewrite Hget.
    now destruct (in_dec string_dec n (dict_keys defs)).
  - intros Hn. rewrite Hget.
    now destruct (in_dec string_dec n (dict_keys defs)).
  - intros img w h. rewrite Hget.
    destruct (in_dec string_dec n (dict_keys defs)); [|discriminate].
    unfold icon_for.
    destruct (Main.resolve n defs) as [d|]; [|discriminate].
    destruct (dict_get sprites (sprite d)) as [sheet|] eqn:Es;
      [|discriminate].
    destruct (crop sheet (Main.box d)) as [cropped|] eqn:Ec; [|discriminate].
    intros [= <- <- <-]. exists d, sheet. now repeat split.
  - apply MainFacts.extract_loop_NoDup. constructor.
Qed.

Lemma extract_icons_witness :
  let icons :=
    Main.icons (Main.extract sample_crop sample_sprites sample_definitions) in
  dict_get icons "world" = Some (mkImage 32 32, 32, 32) /\
  dict_get icons "telefrag" = None /\
  dict_get icons "awper_hand" = None /\
  Main.resolve "sniperrifle" sample_definitions
    = Some (mkDef "sniperrifle" "d_images" 0 32 96 32).
Proof.
  intros icons.
  destruct (extract_icons sample_crop sample_sprites sample_definitions
              "world") as (Hin & _ & _ & _).
  destruct (extract_icons sample_crop sample_sprites sample_definitions
              "telefrag") as (Hskip & _ & _ & _).
  destruct (extract_icons sample_crop sample_sprites sample_definitions
              "awper_hand") as (_ & Hout & _ & _).
  destruct (extract_icons sample_crop sample_sprites sample_definitions
              "sniperrifle") as (_ & _ & Hsound & _).
  refine (conj _ (conj _ (conj _ _))).
  - subst icons. rewrite Hin; [reflexivity | simpl; tauto].
  - subst icons. rewrite Hskip; [reflexivity | simpl; tauto].
  - apply Hout. simpl. intros [H|[H|[H|[H|[]]]]]; discriminate H.
  - destruct (Hsound (mkImage 96 32) 96 32 eq_refl)
      as (d & sheet & Hd & _ & _ & _ & _).
    rewrite Hd. f_equal.
    vm_compute in Hd. now injection Hd as <-.
Defined.

(** X13: the names [main] reports as missing are the definition names
    that do not resolve; each of them is a key of the mappings table (a
    name the table does not rename resolves to its own definition),
    and none of them gets an icon. *)
Theorem missing_names crop sprites defs n :
  (In n (Main.missing (Main.extract crop sprites defs)) <->
   In n (dict_keys defs) /\ Main.resolve n defs = None) /\
  (In n (Main.missing (Main.extract crop sprites defs)) ->
   In n (dict_keys WEAPON_MAPPINGS) /\
   dict_get (Main.icons (Main.extract crop sprites defs)) n = None).
Proof.
  assert (Hiff : In n (Main.missing (Main.extract crop sprites defs)) <->
                 In n (dict_keys defs) /\ Main.resolve n defs = None).
  { unfold Main.extract. rewrite MainFacts.extract_loop_missing. simpl.
    tauto. }
  split; [exact Hiff|].
  intros H. apply Hiff in H. destruct H as [Hin Hres]. split.
  - destruct (dict_get WEAPON_MAPPINGS n) as [m|] eqn:Hm.
    + apply dict_get_keys. now rewrite Hm.
    + exfalso. apply dict_get_keys in Hin.
      destruct (dict_get defs n) as [d|] eqn:Hd; [|now apply Hin].
      rewrite (MainFacts.resolve_own defs n d Hm Hd) in Hres.
      discriminate Hres.
  - rewrite MainFacts.extract_get.
    destruct (in_dec string_dec n (dict_keys defs)); [|reflexivity].
    unfold icon_for. now rewrite Hres.
Qed.

Lemma missing_names_witness :
  let defs := [("world", mkDef "world" "d_images" 32 0 64 32);
               ("club", sample "club")] in
  Main.missing (Main.extract sample_crop sample_sprites defs) = ["world"] /\
  In "world" (dict_keys WEAPON_MAPPINGS).
Proof.
  intros defs. split; [reflexivity|].
  apply (proj2 (missing_names sample_crop sample_sprites defs "world")).
  apply (proj1 (missing_names sample_crop sample_sprites defs "world")).
  split; [now left | reflexivity].
Defined.

(** ** From the packed table to the stylesheet *)

Section Composed.
Variable mappings : dict string.
Hypothesis mappings_keys : NoDup (dict_keys mappings).
Variable positions : dict rect.

(** The rect of a rule is a rect of the table. *)
Lemma rules_with_from n r :
  In (n, r) (Css.rules_with mappings positions) ->
  exists n', dict_get positions n' = Some r.
Proof.
  intros H. apply (rules_with_In mappings positions) in H.
  destruct H as [_ H]. rewrite rect_for_collect in H by assumption.
  destruct (dict_get mappings n) as [t|]; [|now exists n].
  destruct (dict_get positions t) as [rt|] eqn:Et; [|now exists n].
  injection H as <-. now exists t.
Qed.

(** Every name of the table has a rule. *)
Lemma rules_with_covers n :
  In n (dict_keys positions) ->
  exists r, In (n, r) (Css.rules_with mappings positions).
Proof.
  intros Hin.
  destruct (rules_with_spec mappings mappings_keys positions) as (Hn & _).
  assert (H : In n (map fst (Css.rules_with mappings positions)))
    by (apply Hn; now left).
  apply in_map_iff in H. destruct H as ([n' r] & E & H).
  simpl in E. subst n'. now exists r.
Qed.

End Composed.

Lemma emitted_from positions n r :
  In (n, r) (Css.emitted positions) ->
  exists n', dict_get positions n' = Some r.
Proof.
  exact (rules_with_from WEAPON_MAPPINGS WEAPON_MAPPINGS_keys positions n r).
Qed.

Lemma emitted_covers positions n :
  In n (dict_keys positions) -> exists r, In (n, r) (Css.emitted positions).
Proof.
  exact (rules_with_covers WEAPON_MAPPINGS WEAPON_MAPPINGS_keys positions n).
Qed.

Lemma packed_inside icons aliases n x0 y0 w h :
  dict_get (snd (Packer.pack_sprites icons aliases)) n = Some (x0, y0, w, h) ->
  0 <= x0 /\ 0 <= y0 /\
  x0 + w <= sheet_width (fst (Packer.pack_sprites icons aliases)) /\
  y0 + h <= sheet_height (fst (Packer.pack_sprites icons aliases)).
Proof.
  destruct icons as [|item icons]; [discriminate|].
  rewrite pack_sprites_nonempty by discriminate.
  cbv zeta. cbn [fst snd sheet_width sheet_height].
  set (c := Packer.place_all Packer.start
              (Packer.sorted_icons (item :: icons))).
  assert (Hc : packing c)
    by apply PackerFacts.packing_place_all, PackerFacts.packing_start.
  destruct Hc as [Hcur Hrects _]. intros Hn.
  apply PackerFacts.add_aliases_from in Hn. destruct Hn as [n' Hn].
  specialize (Hrects n' _ Hn). unfold placed in Hrects. lia.
Qed.

Lemma selector_line n r rules :
  In (n, r) rules ->
  In (".killicon-" ++ n ++ " {")%string
     (Css.header ++ flat_map (fun nr => Css.rule (fst nr) (snd nr)) rules).
Proof.
  intros H. apply in_or_app. right. apply in_flat_map.
  exists (n, r). split; [assumption|].
  destruct r as [[[x0 y0] w] h]. now left.
Qed.

(** X14: every rule [generate_css] emits for the table [pack_sprites]
    returns addresses a region inside the sheet [pack_sprites]
    returns, and its two offsets read as the negation of the rect's
    [x] and [y]. *)
Theorem rules_inside_sheet icons n x0 y0 w h :
  let packed := Packer.pack_sprites icons WEAPON_ALIASES in
  In (n, (x0, y0, w, h)) (Css.emitted (snd packed)) ->
  0 <= x0 /\ 0 <= y0 /\
  x0 + w <= sheet_width (fst packed) /\
  y0 + h <= sheet_height (fst packed) /\
  Str.to_Z (Css.offset x0) = Some (- x0) /\
  Str.to_Z (Css.offset y0) = Some (- y0).
Proof.
  intros packed H. subst packed.
  destruct (emitted_from _ _ _ H) as [n' Hn'].
  apply packed_inside in Hn'.
  destruct Hn' as (Hx & Hy & Hw & Hh).
  repeat split; try assumption; now apply offset_reads_negated.
Qed.

Lemma rules_inside_sheet_witness :
  let packed :=
    Packer.pack_sprites [("skull", image 32 32); ("club", image 64 32)]
                        WEAPON_ALIASES in
  In ("world", (0, 0, 32, 32)) (Css.emitted (snd packed)) /\
  In ("kukri", (32, 0, 64, 32)) (Css.emitted (snd packed)) /\
  32 + 64 <= sheet_width (fst packed) /\
  Str.to_Z (Css.offset 32) = Some (-32).
Proof.
  intros packed.
  assert (H1 : In ("world", (0, 0, 32, 32)) (Css.emitted (snd packed)))
    by (vm_compute; tauto).
  assert (H2 : In ("kukri", (32, 0, 64, 32)) (Css.emitted (snd packed)))
    by (vm_compute; tauto).
  refine (conj H1 (conj H2 _)).
  destruct (rules_inside_sheet _ "kukri" 32 0 64 32 H2)
    as (_ & _ & Hw & _ & Hx & _).
  split; [exact Hw | exact Hx].
Defined.

(** X15: a definition name for which [main] extracts an icon, and an
    alias of such a name, has a rule in the stylesheet [main] writes:
    the line that opens its rule is one of the lines. *)
Theorem stylesheet_covers crop sprites defs n :
  (In n (dict_keys defs) /\ icon_for crop sprites defs n <> None) \/
  (exists canonical,
     dict_get WEAPON_ALIASES n = Some canonical /\
     In canonical (dict_keys defs) /\
     icon_for crop sprites defs canonical <> None) ->
  In (".killicon-" ++ n ++ " {")%string (Main.stylesheet crop sprites defs).
Proof.
  intros H.
  assert (Hicon : forall m, In m (dict_keys defs) ->
            icon_for crop sprites defs m <> None ->
            In m (dict_keys (Main.icons (Main.extract crop sprites defs)))).
  { intros m Hin Hm. apply dict_get_keys.
    rewrite MainFacts.extract_get.
    now destruct (in_dec string_dec m (dict_keys defs)). }
  assert (Hpos : In n (dict_keys (snd (Main.packed crop sprites defs)))).
  { apply dict_get_keys. unfold Main.packed. apply packed_names.
    destruct H as [[Hin Hn]|(c & Ha & Hin & Hc)].
    - left. now apply Hicon.
    - right. exists c. split; [assumption | now apply Hicon]. }
  destruct (emitted_covers _ n Hpos) as [r Hr].
  unfold Main.stylesheet, Css.generate_css.
  exact (selector_line n r _ Hr).
Qed.

Lemma stylesheet_covers_witness :
  let css := Main.stylesheet sample_crop sample_sprites sample_definitions in
  In ".killicon-sniperrifle {" css /\
  In ".killicon-awper_hand {" css.
Proof.
  intros css. split.
  - apply (stylesheet_covers sample_crop sample_sprites sample_definitions
             "sniperrifle").
    left. split; [simpl; tauto | discriminate].
  - apply (stylesheet_covers sample_crop sample_sprites sample_definitions
             "awper_hand").
    right. exists "sniperrifle".
    split; [reflexivity | split; [simpl; tauto | discriminate]].
Defined.
